(** * Call signalling and presence layer of the platform API server

    A shallow embedding of the Socket.IO part of the server entry point
    (the [io.on('connection', ...)] block): the three process-wide maps
    [onlineUsers], [activeCalls] and [callTimeouts], the handlers for
    [user:online], [audio:call:initiate], [audio:call:accept],
    [audio:call:decline], [audio:call:end] and [disconnect], and the
    [missedCallTimeout] callback armed with [setTimeout].

    Handlers run as turns of a single-threaded event loop.  A handler
    that reaches [await Message.create(...)] is suspended there; the rest
    of it runs in a later turn, when the write has settled, and any other
    event may be processed in between.  Each [await] of the source is one
    constructor of [Task], holding the variables the rest of the handler
    closes over.

    What the model covers and what it leaves out:
    - user ids, socket ids and call ids are strings; a client-supplied
      [duration] is an integer number of seconds or absent; times are
      milliseconds since the epoch, read from the clock once per turn;
    - every event sent ([io.emit], [io.to(..).emit], [socket.emit]), every
      document created in the [Message] collection and every
      [console.error] line is recorded in the state, in order;
      [console.log] output is not;
    - whether an awaited [Message.create] succeeds or throws is up to the
      environment;
    - the three WebRTC relay handlers neither read nor write the call
      stores and are not modelled. *)

From Stdlib Require Import ZArith List Bool Lia.
From stdpp Require Import base decidable option gmap strings list fin_maps pretty.
Import ListNotations.

Local Open Scope string_scope.
Local Open Scope list_scope.
Local Open Scope Z_scope.

(** ** Data *)

Abbreviation UserId := string (only parsing).
Abbreviation SocketId := string (only parsing).
Abbreviation CallId := string (only parsing).
Abbreviation TimerId := nat (only parsing).
Abbreviation TaskId := nat (only parsing).

(** The JavaScript values that reach [wasAccepted]: the result of
    [call.status === 'active' && call.acceptedAt] is either [false], the
    [Date] stored in [acceptedAt], or [undefined]. *)
Inductive JsVal : Type :=
  | JsUndefined
  | JsBool (b : bool)
  | JsDate (ms : Z).

Definition truthy (v : JsVal) : bool :=
  match v with
  | JsUndefined => false
  | JsBool b => b
  | JsDate _ => true
  end.

(** [a && b] of JavaScript: the left operand when it is falsy, else the right. *)
Definition js_and (a b : JsVal) : JsVal := if truthy a then b else a.

(** A string is falsy exactly when it is empty ([!userId], [reason || ...]). *)
Definition str_truthy (s : string) : bool :=
  match s with
  | EmptyString => false
  | String _ _ => true
  end.

Inductive CallStatus : Type := Ringing | Active.

Definition status_string (s : CallStatus) : string :=
  match s with
  | Ringing => "ringing"
  | Active => "active"
  end.

Definition is_active (s : CallStatus) : bool :=
  match s with Active => true | Ringing => false end.

Definition is_ringing (s : CallStatus) : bool :=
  match s with Ringing => true | Active => false end.

(** The session object stored in [activeCalls]. *)
Module Call.
Record t : Type := mk {
  id : CallId;
  caller : UserId;
  receiver : UserId;
  callerSocketId : SocketId;
  receiverSocketId : SocketId;
  status : CallStatus;
  startedAt : Z;
  acceptedAt : option Z;
  callerInfo : string
}.

(** [call.status = 'active'; call.acceptedAt = new Date()] *)
Definition accept (now : Z) (c : t) : t :=
  mk (id c) (caller c) (receiver c) (callerSocketId c) (receiverSocketId c)
     Active (startedAt c) (Some now) (callerInfo c).
End Call.

(** The documents handed to [Message.create] by the call handlers. *)
Module Message.
Record CallData : Type := mkCallData {
  duration : Z;
  callType : string;
  cd_status : string;
  timestamp : Z
}.

Record t : Type := mk {
  sender : UserId;
  receiver : UserId;
  type : string;
  content : string;
  callData : CallData;
  status : string
}.

(** [{ sender, receiver, type: 'call', content: '', callData: { duration,
    callType: 'audio', status, timestamp: new Date() }, status: 'delivered' }] *)
Definition call_record (from to : UserId) (dur : Z) (st : string) (now : Z) : t :=
  mk from to "call" "" (mkCallData dur "audio" st now) "delivered".
End Message.

(** Server-to-client events, one constructor per payload shape. *)
Inductive Payload : Type :=
  | UserStatus (userId : UserId) (isOnline : bool)
  | CallError (message : string)
  | CallInitiated (callId : CallId) (receiverId : UserId)
  | CallIncoming (callId : CallId) (callerInfo : string)
  | CallAccepted (callId : CallId) (acceptedAt : Z)
  | CallDeclined (callId : CallId) (reason : string)
  | CallMissed (callId : CallId) (reason : string) (callType : string)
  | CallEnded (callId : CallId) (duration : Z) (wasAccepted : JsVal)
              (endedBy : option UserId)
  | CallEndedDisconnect (callId : CallId) (duration : Z) (wasAccepted : JsVal)
                        (reason : string).

Definition event_name (p : Payload) : string :=
  match p with
  | UserStatus _ _ => "user:status"
  | CallError _ => "audio:call:error"
  | CallInitiated _ _ => "audio:call:initiated"
  | CallIncoming _ _ => "audio:call:incoming"
  | CallAccepted _ _ => "audio:call:accepted"
  | CallDeclined _ _ => "audio:call:declined"
  | CallMissed _ _ _ => "audio:call:missed"
  | CallEnded _ _ _ _ => "audio:call:ended"
  | CallEndedDisconnect _ _ _ _ => "audio:call:ended"
  end.

(** Where an event is sent: [io.emit], [io.to(room).emit], [socket.emit]. *)
Inductive Target : Type :=
  | Broadcast
  | ToRoom (room : string)
  | ToSocket (socket : SocketId).

(** ** An insertion-ordered map, as JavaScript's [Map]

    [activeCalls] is walked with [forEach] on disconnect, which visits the
    entries in insertion order, so it is kept as an association list:
    [set] on a present key replaces the value in place, on an absent key
    appends. *)
Module JsMap.
Section ops.
Context {V : Type}.

Fixpoint get (k : string) (m : list (string * V)) : option V :=
  match m with
  | [] => None
  | (k', v) :: m' => if decide (k = k') then Some v else get k m'
  end.

Fixpoint set (k : string) (v : V) (m : list (string * V)) : list (string * V) :=
  match m with
  | [] => [(k, v)]
  | (k', v') :: m' =>
      if decide (k = k') then (k, v) :: m' else (k', v') :: set k v m'
  end.

Fixpoint delete (k : string) (m : list (string * V)) : list (string * V) :=
  match m with
  | [] => []
  | (k', v') :: m' =>
      if decide (k = k') then delete k m' else (k', v') :: delete k m'
  end.

Definition keys (m : list (string * V)) : list string := map fst m.
End ops.
End JsMap.

(** ** Timers and suspended handlers *)

(** A pending [setTimeout]: the [callId] its callback closes over, the
    delay, and the time it was armed. *)
Record Timer : Type := mkTimer {
  t_callId : CallId;
  t_delay : Z;
  t_armedAt : Z
}.

(** How an awaited [Message.create] settles. *)
Inductive WriteResult : Type := WriteOk | WriteThrows.

(** A handler suspended at an [await].  The fields of [call] read after
    an await ([caller], [receiver] and the two socket ids) are never
    assigned after the session object is created, so the value captured
    here agrees with the shared object. *)
Inductive Task : Type :=
  | MissedAwait1 (callId : CallId) (call : Call.t) (doc : Message.t)
  | MissedAwait2 (callId : CallId) (call : Call.t) (doc : Message.t)
  | EndAwait1 (socket : SocketId) (callId : CallId) (call : Call.t)
              (finalDuration : Z) (wasAccepted : JsVal) (callStatus : string)
              (doc : Message.t)
  | EndAwait2 (socket : SocketId) (callId : CallId) (call : Call.t)
              (finalDuration : Z) (wasAccepted : JsVal) (callStatus : string)
              (doc : Message.t).

(** ** Server state *)

Record Server : Type := mkServer {
  onlineUsers : gmap string string;          (* userId -> socket id *)
  activeCalls : list (string * Call.t);      (* callId -> session *)
  callTimeouts : gmap string nat;            (* callId -> timer handle *)
  socketUserId : gmap string string;         (* [socket.userId] of each socket *)
  rooms : list (string * string);            (* [socket.join(room)] *)
  timers : gmap nat Timer;                   (* pending timers of the runtime *)
  nextTimer : nat;
  tasks : gmap nat Task;                     (* handlers suspended at an await *)
  nextTask : nat;
  messages : list Message.t;                 (* documents created in the store *)
  emitted : list (Target * Payload);         (* events sent, oldest first *)
  errors : list string                       (* [console.error] lines *)
}.

Definition init : Server :=
  mkServer ∅ [] ∅ ∅ [] ∅ 0%nat ∅ 0%nat [] [] [].

(** One update per field.  Each takes the record apart once, so that a
    chain of updates on a known state reduces in one pass. *)
Definition set_onlineUsers (f : gmap string string → gmap string string) (st : Server) : Server :=
  match st with
  | mkServer ou ac ct su rm tm nt tk nk ms em er =>
      mkServer (f ou) ac ct su rm tm nt tk nk ms em er
  end.

Definition set_activeCalls (f : list (string * Call.t) → list (string * Call.t)) (st : Server) : Server :=
  match st with
  | mkServer ou ac ct su rm tm nt tk nk ms em er =>
      mkServer ou (f ac) ct su rm tm nt tk nk ms em er
  end.

Definition set_callTimeouts (f : gmap string nat → gmap string nat) (st : Server) : Server :=
  match st with
  | mkServer ou ac ct su rm tm nt tk nk ms em er =>
      mkServer ou ac (f ct) su rm tm nt tk nk ms em er
  end.

Definition set_socketUserId (f : gmap string string → gmap string string) (st : Server) : Server :=
  match st with
  | mkServer ou ac ct su rm tm nt tk nk ms em er =>
      mkServer ou ac ct (f su) rm tm nt tk nk ms em er
  end.

Definition set_rooms (f : list (string * string) → list (string * string)) (st : Server) : Server :=
  match st with
  | mkServer ou ac ct su rm tm nt tk nk ms em er =>
      mkServer ou ac ct su (f rm) tm nt tk nk ms em er
  end.

Definition set_timers (f : gmap nat Timer → gmap nat Timer) (st : Server) : Server :=
  match st with
  | mkServer ou ac ct su rm tm nt tk nk ms em er =>
      mkServer ou ac ct su rm (f tm) nt tk nk ms em er
  end.

Definition set_nextTimer (n : nat) (st : Server) : Server :=
  match st with
  | mkServer ou ac ct su rm tm nt tk nk ms em er =>
      mkServer ou ac ct su rm tm n tk nk ms em er
  end.

Definition set_tasks (f : gmap nat Task → gmap nat Task) (st : Server) : Server :=
  match st with
  | mkServer ou ac ct su rm tm nt tk nk ms em er =>
      mkServer ou ac ct su rm tm nt (f tk) nk ms em er
  end.

Definition set_nextTask (n : nat) (st : Server) : Server :=
  match st with
  | mkServer ou ac ct su rm tm nt tk nk ms em er =>
      mkServer ou ac ct su rm tm nt tk n ms em er
  end.

Definition set_messages (f : list Message.t → list Message.t) (st : Server) : Server :=
  match st with
  | mkServer ou ac ct su rm tm nt tk nk ms em er =>
      mkServer ou ac ct su rm tm nt tk nk (f ms) em er
  end.

Definition set_emitted (f : list (Target * Payload) → list (Target * Payload)) (st : Server) : Server :=
  match st with
  | mkServer ou ac ct su rm tm nt tk nk ms em er =>
      mkServer ou ac ct su rm tm nt tk nk ms (f em) er
  end.

Definition set_errors (f : list string → list string) (st : Server) : Server :=
  match st with
  | mkServer ou ac ct su rm tm nt tk nk ms em er =>
      mkServer ou ac ct su rm tm nt tk nk ms em (f er)
  end.

(** ** The primitives the handlers call *)

Definition io_emit (p : Payload) : Server → Server :=
  set_emitted (λ l, l ++ [(Broadcast, p)]).

Definition io_to (room : string) (p : Payload) : Server → Server :=
  set_emitted (λ l, l ++ [(ToRoom room, p)]).

Definition socket_emit (socket : SocketId) (p : Payload) : Server → Server :=
  set_emitted (λ l, l ++ [(ToSocket socket, p)]).

(** [console.error(line, error)]; the line is kept without its leading
    symbol and without the error object. *)
Definition console_error (line : string) : Server → Server :=
  set_errors (λ l, l ++ [line]).

(** [clearTimeout(h)]: a pending timer is cancelled, anything else is ignored. *)
Definition clearTimeout (h : TimerId) : Server → Server :=
  set_timers (base.delete h).

(** [setTimeout(cb, delay)] for the missed-call callback of [callId]:
    a fresh handle, pending from now on. *)
Definition setTimeout (callId : CallId) (delay now : Z) (st : Server) : TimerId * Server :=
  let h := nextTimer st in
  (h, set_nextTimer (S h) (set_timers (<[h := mkTimer callId delay now]>) st)).

(** The block shared by accept, decline, end and disconnect:
    [const timeout = callTimeouts.get(callId);
     if (timeout) { clearTimeout(timeout); callTimeouts.delete(callId); }] *)
Definition clear_call_timeout (callId : CallId) (st : Server) : Server :=
  match callTimeouts st !! callId with
  | Some timeout => set_callTimeouts (base.delete callId) (clearTimeout timeout st)
  | None => st
  end.

(** The write has succeeded: the document is in the collection. *)
Definition Message_create (doc : Message.t) : Server → Server :=
  set_messages (λ l, l ++ [doc]).

(** The handler stops at an await; [t] is what is left of it. *)
Definition suspend (t : Task) (st : Server) : Server :=
  set_nextTask (S (nextTask st)) (set_tasks (<[nextTask st := t]>) st).

(** [call_${callerId}_${receiverId}_${Date.now()}] *)
Definition make_callId (callerId receiverId : UserId) (now : Z) : CallId :=
  "call_" +:+ callerId +:+ "_" +:+ receiverId +:+ "_" +:+ pretty now.

(** ** Handlers *)

(** [socket.on('user:online', (userId) => ...)] *)
Definition on_user_online (socket : SocketId) (userId : UserId) (st : Server) : Server :=
  if str_truthy userId then
    let st := set_socketUserId (<[socket := userId]>) st in
    let st := set_rooms (λ l, l ++ [(socket, userId)]) st in
    let st := set_onlineUsers (<[userId := socket]>) st in
    io_emit (UserStatus userId true) st
  else st.

(** The session object built by [audio:call:initiate]. *)
Definition new_call (callId : CallId) (callerId receiverId : UserId)
    (socket receiverSocketId : SocketId) (now : Z) (callerInfo : string) : Call.t :=
  Call.mk callId callerId receiverId socket receiverSocketId Ringing now None callerInfo.

(** [socket.on('audio:call:initiate', async ({ receiverId, callerId, callerInfo }) => ...)] *)
Definition on_call_initiate (socket : SocketId) (receiverId callerId : UserId)
    (callerInfo : string) (now : Z) (st : Server) : Server :=
  let callId := make_callId callerId receiverId now in
  match onlineUsers st !! receiverId with
  | Some receiverSocketId =>
      if str_truthy receiverSocketId then
        let st := set_activeCalls
                    (JsMap.set callId
                       (new_call callId callerId receiverId socket receiverSocketId now callerInfo))
                    st in
        let '(missedCallTimeout, st) := setTimeout callId 30000 now st in
        let st := set_callTimeouts (<[callId := missedCallTimeout]>) st in
        let st := socket_emit socket (CallInitiated callId receiverId) st in
        io_to receiverSocketId (CallIncoming callId callerInfo) st
      else socket_emit socket (CallError "User is offline") st
  | None => socket_emit socket (CallError "User is offline") st
  end.

(** The callback given to [setTimeout], up to its first [await]. *)
Definition missedCallTimeout (callId : CallId) (now : Z) (st : Server) : Server :=
  match JsMap.get callId (activeCalls st) with
  | Some call =>
      if is_ringing (Call.status call) then
        suspend (MissedAwait1 callId call
                   (Message.call_record (Call.caller call) (Call.receiver call) 0 "missed" now))
                st
      else st
  | None => st
  end.

(** The end of the callback, after the [try]/[catch] around the two writes. *)
Definition missed_notify (callId : CallId) (call : Call.t) (st : Server) : Server :=
  let st := io_to (Call.callerSocketId call) (CallMissed callId "No answer" "outgoing") st in
  let st := io_to (Call.receiverSocketId call) (CallMissed callId "Missed call" "incoming") st in
  let st := set_activeCalls (JsMap.delete callId) st in
  set_callTimeouts (base.delete callId) st.

(** [socket.on('audio:call:accept', async ({ callId }) => ...)] *)
Definition on_call_accept (socket : SocketId) (callId : CallId) (now : Z) (st : Server) : Server :=
  match JsMap.get callId (activeCalls st) with
  | None => st
  | Some call =>
      let st := clear_call_timeout callId st in
      let call := Call.accept now call in
      let st := set_activeCalls (JsMap.set callId call) st in
      let st := io_to (Call.callerSocketId call) (CallAccepted callId now) st in
      io_to (Call.receiverSocketId call) (CallAccepted callId now) st
  end.

(** [reason || 'Call declined'] *)
Definition reason_or_default (reason : option string) : string :=
  match reason with
  | Some r => if str_truthy r then r else "Call declined"
  | None => "Call declined"
  end.

(** [socket.on('audio:call:decline', async ({ callId, reason }) => ...)] *)
Definition on_call_decline (socket : SocketId) (callId : CallId) (reason : option string)
    (st : Server) : Server :=
  match JsMap.get callId (activeCalls st) with
  | None => st
  | Some call =>
      let st := clear_call_timeout callId st in
      let st := io_to (Call.callerSocketId call)
                  (CallDeclined callId (reason_or_default reason)) st in
      set_activeCalls (JsMap.delete callId) st
  end.

(** [call.acceptedAt ? Math.floor((new Date() - call.acceptedAt) / 1000) : 0] *)
Definition elapsed_seconds (call : Call.t) (now : Z) : Z :=
  match Call.acceptedAt call with
  | Some t => (now - t) / 1000
  | None => 0
  end.

(** [duration !== undefined ? duration : (...)] *)
Definition finalDuration (duration : option Z) (call : Call.t) (now : Z) : Z :=
  match duration with
  | Some d => d
  | None => elapsed_seconds call now
  end.

(** [call.status === 'active' && call.acceptedAt] *)
Definition wasAccepted (call : Call.t) : JsVal :=
  js_and (JsBool (is_active (Call.status call)))
         (match Call.acceptedAt call with Some t => JsDate t | None => JsUndefined end).

(** [wasAccepted && finalDuration > 0 ? 'completed' : 'missed'] *)
Definition callStatus (wasAcc : JsVal) (finalDur : Z) : string :=
  if truthy wasAcc && (0 <? finalDur) then "completed" else "missed".

(** [socket.on('audio:call:end', async ({ callId, duration }) => ...)],
    up to its first [await]. *)
Definition on_call_end (socket : SocketId) (callId : CallId) (duration : option Z)
    (now : Z) (st : Server) : Server :=
  match JsMap.get callId (activeCalls st) with
  | None => st
  | Some call =>
      let st := clear_call_timeout callId st in
      let fd := finalDuration duration call now in
      let wa := wasAccepted call in
      let cs := callStatus wa fd in
      suspend (EndAwait1 socket callId call fd wa cs
                 (Message.call_record (Call.caller call) (Call.receiver call) fd cs now))
              st
  end.

(** The end of the handler, after the [try]/[catch] around the two writes;
    [socket.userId] is read here. *)
Definition end_notify (socket : SocketId) (callId : CallId) (call : Call.t)
    (fd : Z) (wa : JsVal) (st : Server) : Server :=
  let endData := CallEnded callId fd wa (socketUserId st !! socket) in
  let st := io_to (Call.callerSocketId call) endData st in
  let st := io_to (Call.receiverSocketId call) endData st in
  set_activeCalls (JsMap.delete callId) st.

(** A suspended handler goes on when its write has settled.  [tid] is the
    slot it was suspended in; a handler that awaits again goes back there. *)
Definition resume (tid : TaskId) (t : Task) (r : WriteResult) (now : Z) (st : Server) : Server :=
  match t, r with
  | MissedAwait1 callId call doc, WriteOk =>
      let st := Message_create doc st in
      set_tasks (<[tid := MissedAwait2 callId call
                     (Message.call_record (Call.receiver call) (Call.caller call) 0 "missed" now)]>)
                st
  | MissedAwait2 callId call doc, WriteOk =>
      missed_notify callId call (Message_create doc st)
  | MissedAwait1 callId call _, WriteThrows
  | MissedAwait2 callId call _, WriteThrows =>
      missed_notify callId call (console_error "Error creating missed call records" st)
  | EndAwait1 socket callId call fd wa cs doc, WriteOk =>
      let st := Message_create doc st in
      set_tasks (<[tid := EndAwait2 socket callId call fd wa cs
                     (Message.call_record (Call.receiver call) (Call.caller call) fd cs now)]>)
                st
  | EndAwait2 socket callId call fd wa cs doc, WriteOk =>
      end_notify socket callId call fd wa (Message_create doc st)
  | EndAwait1 socket callId call fd wa _ _, WriteThrows
  | EndAwait2 socket callId call fd wa _ _, WriteThrows =>
      end_notify socket callId call fd wa
        (console_error "Error creating call end records" st)
  end.

(** The body of [activeCalls.forEach((call, callId) => ...)] on disconnect. *)
Definition disconnect_call (socket : SocketId) (now : Z) (st : Server)
    (entry : string * Call.t) : Server :=
  let '(callId, call) := entry in
  if bool_decide (Call.callerSocketId call = socket)
     || bool_decide (Call.receiverSocketId call = socket) then
    let st := clear_call_timeout callId st in
    let endData :=
      CallEndedDisconnect callId (elapsed_seconds call now) (wasAccepted call)
        "User disconnected" in
    let st :=
      if bool_decide (Call.callerSocketId call = socket)
      then io_to (Call.receiverSocketId call) endData st
      else io_to (Call.callerSocketId call) endData st in
    set_activeCalls (JsMap.delete callId) st
  else st.

(** [socket.on('disconnect', () => ...)].  Each turn of the loop deletes
    only the entry it is visiting, so walking the entries present at the
    start visits what [forEach] visits. *)
Definition on_disconnect (socket : SocketId) (now : Z) (st : Server) : Server :=
  let st :=
    match socketUserId st !! socket with
    | Some userId =>
        if str_truthy userId then
          io_emit (UserStatus userId false) (set_onlineUsers (base.delete userId) st)
        else st
    | None => st
    end in
  fold_left (disconnect_call socket now) (activeCalls st) st.

(** ** The event loop *)

(** What the environment can make happen: a client message on a socket,
    a disconnect, a pending timer coming due, an awaited write settling.
    [now] is the clock reading of that turn. *)
Inductive Event : Type :=
  | UserOnline (socket : SocketId) (userId : UserId)
  | CallInitiate (socket : SocketId) (receiverId callerId : UserId)
                 (callerInfo : string) (now : Z)
  | CallAccept (socket : SocketId) (callId : CallId) (now : Z)
  | CallDecline (socket : SocketId) (callId : CallId) (reason : option string)
  | CallEnd (socket : SocketId) (callId : CallId) (duration : option Z) (now : Z)
  | Disconnect (socket : SocketId) (now : Z)
  | TimerFires (h : TimerId) (now : Z)
  | WriteSettles (tid : TaskId) (r : WriteResult) (now : Z).

(** One turn.  A timer fires only while pending and not before its delay
    has passed; a write settles only for a handler that awaits one. *)
Definition step (e : Event) (st : Server) : option Server :=
  match e with
  | UserOnline socket userId => Some (on_user_online socket userId st)
  | CallInitiate socket receiverId callerId callerInfo now =>
      Some (on_call_initiate socket receiverId callerId callerInfo now st)
  | CallAccept socket callId now => Some (on_call_accept socket callId now st)
  | CallDecline socket callId reason => Some (on_call_decline socket callId reason st)
  | CallEnd socket callId duration now => Some (on_call_end socket callId duration now st)
  | Disconnect socket now => Some (on_disconnect socket now st)
  | TimerFires h now =>
      match timers st !! h with
      | Some tm =>
          if t_armedAt tm + t_delay tm <=? now
          then Some (missedCallTimeout (t_callId tm) now (set_timers (base.delete h) st))
          else None
      | None => None
      end
  | WriteSettles tid r now =>
      match tasks st !! tid with
      | Some t => Some (resume tid t r now (set_tasks (base.delete tid) st))
      | None => None
      end
  end.

Fixpoint run (es : list Event) (st : Server) : option Server :=
  match es with
  | [] => Some st
  | e :: es' =>
      match step e st with
      | Some st' => run es' st'
      | None => None
      end
  end.

Definition reachable (st : Server) : Prop := ∃ es, run es init = Some st.

(** ** Vocabulary of the properties *)

(** The events sent between two states of one execution. *)
Definition emitted_since (before after : Server) : list (Target * Payload) :=
  drop (length (emitted before)) (emitted after).

(** A session is active exactly when it carries an acceptance time. *)
Definition call_consistent (call : Call.t) : bool :=
  Bool.eqb (is_active (Call.status call))
           (match Call.acceptedAt call with Some _ => true | None => false end).

Definition calls_consistent (st : Server) : Prop :=
  ∀ callId call, JsMap.get callId (activeCalls st) = Some call →
    call_consistent call = true.

(** The turns of one handler left to itself: the event that starts it,
    then each of its writes settling, with the clock reading of that turn. *)
Definition settle (tid : TaskId) (o : WriteResult * Z) : Event :=
  WriteSettles tid o.1 o.2.

Definition end_turns (socket : SocketId) (callId : CallId) (duration : option Z)
    (now : Z) (tid : TaskId) (outcomes : list (WriteResult * Z)) : list Event :=
  CallEnd socket callId duration now :: map (settle tid) outcomes.

Definition timeout_turns (h : TimerId) (now : Z) (tid : TaskId)
    (outcomes : list (WriteResult * Z)) : list Event :=
  TimerFires h now :: map (settle tid) outcomes.

(** The two [audio:call:ended] events of an explicit end. *)
Definition ended_events (socket : SocketId) (callId : CallId) (call : Call.t)
    (fd : Z) (st : Server) : list (Target * Payload) :=
  [ (ToRoom (Call.callerSocketId call),
      CallEnded callId fd (wasAccepted call) (socketUserId st !! socket));
    (ToRoom (Call.receiverSocketId call),
      CallEnded callId fd (wasAccepted call) (socketUserId st !! socket)) ].

(** The two [audio:call:missed] events of a timeout. *)
Definition missed_events (callId : CallId) (call : Call.t) : list (Target * Payload) :=
  [ (ToRoom (Call.callerSocketId call), CallMissed callId "No answer" "outgoing");
    (ToRoom (Call.receiverSocketId call), CallMissed callId "Missed call" "incoming") ].

(** The call a suspended handler belongs to. *)
Definition task_callId (t : Task) : CallId :=
  match t with
  | MissedAwait1 c _ _ | MissedAwait2 c _ _
  | EndAwait1 _ c _ _ _ _ _ | EndAwait2 _ c _ _ _ _ _ => c
  end.

(** A presence registry that guards against stale disconnects: after [u]
    has announced itself on [c1] and then on [c2], a disconnect of [c1]
    leaves the entry of [u] alone and broadcasts no offline event. *)
Definition stale_disconnect_guarded (u : UserId) (c1 c2 : SocketId) (now : Z)
    (st : Server) : Prop :=
  let st2 := on_user_online c2 u (on_user_online c1 u st) in
  let st3 := on_disconnect c1 now st2 in
  onlineUsers st3 !! u = onlineUsers st2 !! u ∧
  (Broadcast, UserStatus u false) ∉ emitted_since st2 st3.

(** A session store that rejects a duplicate create: an initiate whose
    [callId] is already in the store leaves the stored session as it is. *)
Definition second_create_rejected (socket : SocketId) (receiverId callerId : UserId)
    (callerInfo : string) (now : Z) (st : Server) : Prop :=
  let callId := make_callId callerId receiverId now in
  ∀ s, JsMap.get callId (activeCalls st) = Some s →
    JsMap.get callId
      (activeCalls (on_call_initiate socket receiverId callerId callerInfo now st))
    = Some s.

(** A turn that resolves before it awaits: every handler this turn leaves
    suspended on a write has its session and timeout entry out of the
    stores already. *)
Definition resolved_before_await (e : Event) (st : Server) : Prop :=
  ∀ st' tid t, step e st = Some st' →
    tasks st !! tid = None → tasks st' !! tid = Some t →
    JsMap.get (task_callId t) (activeCalls st') = None ∧
    callTimeouts st' !! task_callId t = None.

Definition is_ended (tp : Target * Payload) : bool :=
  match tp.2 with
  | CallEnded _ _ _ _ | CallEndedDisconnect _ _ _ _ => true
  | _ => false
  end.

Definition is_missed_task (t : Task) : bool :=
  match t with
  | MissedAwait1 _ _ _ | MissedAwait2 _ _ _ => true
  | EndAwait1 _ _ _ _ _ _ _ | EndAwait2 _ _ _ _ _ _ _ => false
  end.

Definition is_missed (tp : Target * Payload) : bool :=
  match tp.2 with
  | CallMissed _ _ _ => true
  | _ => false
  end.


(** An accept or a decline for [callId]. *)
Definition resolves (callId : CallId) (e : Event) : bool :=
  match e with
  | CallAccept _ c _ | CallDecline _ c _ => bool_decide (c = callId)
  | _ => false
  end.






(** A turn that arms nothing, fires nothing and sends no
    [audio:call:missed]. *)
Definition quiet (st st' : Server) : Prop :=
  nextTimer st' = nextTimer st ∧
  (∀ h tm, timers st' !! h = Some tm → timers st !! h = Some tm) ∧
  (∀ c h, callTimeouts st' !! c = Some h → callTimeouts st !! c = Some h) ∧
  (∀ tid t, tasks st' !! tid = Some t → is_missed_task t = true →
     tasks st !! tid = Some t) ∧
  ∃ more, emitted st' = emitted st ++ more ∧ Forall (λ tp, is_missed tp = false) more.

(** Turns that are not a write settling for the handler suspended in
    slot [tid]: anything else the event loop may run in between. *)
Definition leaves_alone (tid : TaskId) (e : Event) : Prop :=
  ∀ r now, e ≠ WriteSettles tid r now.

(** ** Sample executions *)

Definition alice_calls_bob : list Event :=
  [ UserOnline "sA" "alice"; UserOnline "sB" "bob";
    CallInitiate "sA" "bob" "alice" "Alice" 1000 ].

Definition ringing_state : Server :=
  on_call_initiate "sA" "bob" "alice" "Alice" 1000
    (on_user_online "sB" "bob" (on_user_online "sA" "alice" init)).

Definition the_call : CallId := "call_alice_bob_1000".

Definition active_state : Server := on_call_accept "sB" the_call 2000 ringing_state.

(** A third user, carol, comes online while alice and bob are in a call. *)
Definition active_state_with_carol : Server := on_user_online "sC" "carol" active_state.

Definition ringing_call : Call.t := new_call the_call "alice" "bob" "sA" "sB" 1000 "Alice".

Definition active_call : Call.t := Call.accept 2000 ringing_call.

(** Both parties hang up at nearly the same time: the second
    [audio:call:end] arrives while the first is waiting for its write. *)
Definition double_end : list Event :=
  alice_calls_bob ++
  [ CallAccept "sB" the_call 2000;
    CallEnd "sA" the_call (Some 42) 9000;
    CallEnd "sB" the_call (Some 42) 9001;
    WriteSettles 0 WriteOk 9002; WriteSettles 1 WriteOk 9003;
    WriteSettles 0 WriteOk 9004; WriteSettles 1 WriteOk 9005 ].

(** alice hangs up the accepted call and both writes succeed. *)
Definition hang_up : list Event :=
  [ CallEnd "sA" the_call None 9500;
    WriteSettles 0 WriteOk 9600; WriteSettles 0 WriteOk 9700 ].

(** ** The rest of the entry point

    The WebRTC relay handlers, which read [onlineUsers] and write nothing,
    and the origin check of the CORS middleware. *)

(** A relayed negotiation payload, tagged with [socket.userId] of the
    sender (absent when the sender never announced itself). *)
Inductive Signal : Type :=
  | SigOffer (callId : CallId) (senderId : option UserId) (offer : string)
  | SigAnswer (callId : CallId) (senderId : option UserId) (answer : string)
  | SigIceCandidate (callId : CallId) (senderId : option UserId) (candidate : string).

Definition signal_name (sig : Signal) : string :=
  match sig with
  | SigOffer _ _ _ => "audio:webrtc:offer"
  | SigAnswer _ _ _ => "audio:webrtc:answer"
  | SigIceCandidate _ _ _ => "audio:webrtc:ice-candidate"
  end.

(** The lookup the three relay handlers share:
    [const id = onlineUsers.get(userId); if (id) { io.to(id).emit(...) }].
    The result is the one [io.to(room).emit] the handler performs, if any;
    no store is touched. *)
Definition relay_to (userId : UserId) (sig : Signal) (st : Server) : option (string * Signal) :=
  match onlineUsers st !! userId with
  | Some socketId => if str_truthy socketId then Some (socketId, sig) else None
  | None => None
  end.

(** [socket.on('audio:webrtc:offer', ({ callId, receiverId, offer }) => ...)] *)
Definition on_webrtc_offer (socket : SocketId) (callId : CallId) (receiverId : UserId)
    (offer : string) (st : Server) : option (string * Signal) :=
  relay_to receiverId (SigOffer callId (socketUserId st !! socket) offer) st.

(** [socket.on('audio:webrtc:answer', ({ callId, callerId, answer }) => ...)] *)
Definition on_webrtc_answer (socket : SocketId) (callId : CallId) (callerId : UserId)
    (answer : string) (st : Server) : option (string * Signal) :=
  relay_to callerId (SigAnswer callId (socketUserId st !! socket) answer) st.

(** [socket.on('audio:webrtc:ice-candidate', ({ callId, targetUserId, candidate }) => ...)] *)
Definition on_webrtc_ice_candidate (socket : SocketId) (callId : CallId)
    (targetUserId : UserId) (candidate : string) (st : Server) : option (string * Signal) :=
  relay_to targetUserId (SigIceCandidate callId (socketUserId st !! socket) candidate) st.

(** [[...].filter(Boolean)] on a list of strings, some of which may be
    [undefined]: the absent and the empty ones go. *)
Definition filter_Boolean (l : list (option string)) : list string :=
  flat_map (λ o, match o with
                 | Some s => if str_truthy s then [s] else []
                 | None => []
                 end) l.

(** The list built in [corsOptions.origin]; [frontendUrl] is
    [process.env.FRONTEND_URL]. *)
Definition allowedOrigins (frontendUrl : option string) : list string :=
  filter_Boolean
    [ Some "https://nelly.pics"; Some "http://localhost:3000";
      Some "http://localhost:5173"; Some "http://localhost:5174"; frontendUrl ].

(** [corsOptions.origin]: [true] for [callback(null, true)], [false] for
    [callback(new Error('Not allowed by CORS'))].  [origin] is absent for
    a request without an Origin header.
    [!origin || allowedOrigins.indexOf(origin) !== -1] *)
Definition cors_origin (frontendUrl origin : option string) : bool :=
  match origin with
  | None => true
  | Some o => negb (str_truthy o) || existsb (String.eqb o) (allowedOrigins frontendUrl)
  end.

(** ** Vocabulary of the further properties *)

(** The disconnecting socket is one of the two recorded in the session. *)
Definition involves (socket : SocketId) (entry : string * Call.t) : bool :=
  bool_decide (Call.callerSocketId entry.2 = socket)
  || bool_decide (Call.receiverSocketId entry.2 = socket).

(** The [audio:call:ended] a disconnect sends for a session it tears down. *)
Definition disconnect_notice (socket : SocketId) (now : Z) (entry : string * Call.t)
    : Target * Payload :=
  (ToRoom (if bool_decide (Call.callerSocketId entry.2 = socket)
           then Call.receiverSocketId entry.2 else Call.callerSocketId entry.2),
   CallEndedDisconnect entry.1 (elapsed_seconds entry.2 now) (wasAccepted entry.2)
     "User disconnected").

(** The [user:status] offline broadcast of a disconnect, if it makes one. *)
Definition offline_notice (socket : SocketId) (st : Server) : list (Target * Payload) :=
  match socketUserId st !! socket with
  | Some userId => if str_truthy userId then [(Broadcast, UserStatus userId false)] else []
  | None => []
  end.

(** A call-history document as the handlers build them: never
    ["declined"], and ["completed"] only with a positive duration. *)
Definition history_doc_ok (d : Message.t) : Prop :=
  Message.type d = "call" ∧ Message.content d = "" ∧ Message.status d = "delivered" ∧
  Message.callType (Message.callData d) = "audio" ∧
  (Message.cd_status (Message.callData d) = "missed" ∨
   (Message.cd_status (Message.callData d) = "completed" ∧
    0 < Message.duration (Message.callData d))).

Definition status_ok (cs : string) (fd : Z) : Prop :=
  cs = "missed" ∨ (cs = "completed" ∧ 0 < fd).

(** What a suspended handler will still write is of that shape too. *)
Definition task_ok (t : Task) : Prop :=
  match t with
  | MissedAwait1 _ _ doc | MissedAwait2 _ _ doc => history_doc_ok doc
  | EndAwait1 _ _ _ fd _ cs doc => history_doc_ok doc ∧ status_ok cs fd
  | EndAwait2 _ _ _ _ _ _ doc => history_doc_ok doc
  end.

Definition history_ok (st : Server) : Prop :=
  Forall history_doc_ok (messages st) ∧
  ∀ tid t, tasks st !! tid = Some t → task_ok t.

(** No timeout is on record for a call that has been accepted. *)
Definition timeouts_only_ringing (st : Server) : Prop :=
  ∀ c h call, callTimeouts st !! c = Some h →
    JsMap.get c (activeCalls st) = Some call → Call.status call = Ringing.

(** The logs of [st'] continue those of [st]. *)
Definition logs_extend (st st' : Server) : Prop :=
  (∃ m, messages st' = messages st ++ m) ∧
  (∃ e, emitted st' = emitted st ++ e) ∧
  (∃ l, errors st' = errors st ++ l).

(** The timeout of [h] fires while its write is awaited an accept comes in. *)
Definition accept_during_timeout (h : TimerId) (socket : SocketId) (callId : CallId)
    (now n0 n1 n2 : Z) (tid : TaskId) : list Event :=
  [ TimerFires h now; CallAccept socket callId n0;
    WriteSettles tid WriteOk n1; WriteSettles tid WriteOk n2 ].

(** Two hang-ups for one call, the second processed while the first
    awaits its write. *)
Definition overlapping_ends (s1 s2 : SocketId) (callId : CallId) (d1 d2 : option Z)
    (t1 t2 n1 n2 n3 n4 : Z) (tid : TaskId) : list Event :=
  [ CallEnd s1 callId d1 t1; CallEnd s2 callId d2 t2;
    WriteSettles tid WriteOk n1; WriteSettles (S tid) WriteOk n2;
    WriteSettles tid WriteOk n3; WriteSettles (S tid) WriteOk n4 ].

(** bob's socket drops while his call with alice is active. *)
Definition bob_drops : Server := on_disconnect "sB" 9000 active_state.

(** alice's initiate is processed twice in one millisecond, then bob
    declines: the first timer is still pending, its session gone. *)
Definition declined_twice_initiated : Server :=
  on_call_decline "sB" the_call None
    (on_call_initiate "sA" "bob" "alice" "Alice" 1000 ringing_state).

(** * Verification *)

(** ** The insertion-ordered map *)

Section JsMapFacts.
Context {V : Type}.
Implicit Types (k : string) (v : V) (m : list (string * V)).

Lemma JsMap_get_set_eq k v m : JsMap.get k (JsMap.set k v m) = Some v.
Proof.
  induction m as [|[k' v'] m IH]; simpl.
  - by rewrite decide_True.
  - destruct (decide (k = k')) as [->|Hne]; simpl.
    + by rewrite decide_True.
    + by rewrite decide_False.
Qed.

Lemma JsMap_get_set_ne k k' v m :
  k ≠ k' → JsMap.get k' (JsMap.set k v m) = JsMap.get k' m.
Proof.
  intros Hne. induction m as [|[k0 v0] m IH]; simpl.
  - rewrite decide_False; [done | congruence].
  - destruct (decide (k = k0)) as [->|Hk]; simpl.
    + rewrite !decide_False; [done | congruence | congruence].
    + destruct (decide (k' = k0)); [done | apply IH].
Qed.

Lemma JsMap_get_delete_eq k m : JsMap.get k (JsMap.delete k m) = None.
Proof.
  induction m as [|[k' v'] m IH]; simpl; [done|].
  destruct (decide (k = k')) as [->|Hne]; simpl; [done|].
  by rewrite decide_False.
Qed.

Lemma JsMap_get_delete_ne k k' m :
  k ≠ k' → JsMap.get k' (JsMap.delete k m) = JsMap.get k' m.
Proof.
  intros Hne. induction m as [|[k0 v0] m IH]; simpl; [done|].
  destruct (decide (k = k0)) as [->|Hk]; simpl.
  - rewrite decide_False; [apply IH | congruence].
  - destruct (decide (k' = k0)); [done | apply IH].
Qed.

Lemma JsMap_delete_absent k m : JsMap.get k m = None → JsMap.delete k m = m.
Proof.
  induction m as [|[k' v'] m IH]; simpl; [done|].
  destruct (decide (k = k')); [done|]. intros H. by rewrite IH.
Qed.
End JsMapFacts.

(** ** Reducing a handler on a known state *)

Create HintDb server discriminated.

#[local] Hint Unfold on_user_online on_call_initiate on_call_accept on_call_decline
  on_call_end missedCallTimeout missed_notify end_notify clear_call_timeout new_call
  setTimeout clearTimeout suspend Message_create console_error io_emit io_to
  socket_emit disconnect_call : server.

Ltac server_cbn :=
  autounfold with server;
  cbn [run step resume map settle fst snd is_ringing is_active
       set_onlineUsers set_activeCalls set_callTimeouts set_socketUserId set_rooms
       set_timers set_nextTimer set_tasks set_nextTask set_messages set_emitted
       set_errors
       onlineUsers activeCalls callTimeouts socketUserId rooms timers nextTimer
       tasks nextTask messages emitted errors].

Ltac server_cbn_in H :=
  cbn [onlineUsers activeCalls callTimeouts socketUserId rooms timers nextTimer
       tasks nextTask messages emitted errors] in H.

(** Take the state apart and name its fields. *)
Ltac open_state st :=
  destruct st as [ou ac ct su rm tmrs nt tk nk ms em er].

Ltac turns :=
  repeat (progress (server_cbn; rewrite ?lookup_insert_eq)).

(** ** The timeout block *)

Lemma clear_call_timeout_entry callId st :
  callTimeouts (clear_call_timeout callId st) !! callId = None.
Proof.
  open_state st. server_cbn.
  destruct (ct !! callId) eqn:E; server_cbn; [apply lookup_delete_eq | done].
Qed.

Lemma clear_call_timeout_cancels callId st h :
  callTimeouts st !! callId = Some h →
  timers (clear_call_timeout callId st) !! h = None.
Proof.
  open_state st. server_cbn. intros ->. server_cbn. apply lookup_delete_eq.
Qed.

Lemma callTimeouts_cleared callId st :
  callTimeouts (clear_call_timeout callId st) = base.delete callId (callTimeouts st).
Proof.
  open_state st. server_cbn.
  destruct (ct !! callId) eqn:E; server_cbn; [done|].
  symmetry. by apply delete_id.
Qed.

(** ** Decline *)

Lemma accept_makes_active (st : Server) (socket : SocketId) (callId : CallId) (now : Z)
    (call : Call.t) :
  JsMap.get callId (activeCalls st) = Some call →
  JsMap.get callId (activeCalls (on_call_accept socket callId now st))
  = Some (Call.accept now call).
Proof.
  open_state st. server_cbn. intros ->.
  destruct (ct !! callId); server_cbn; apply JsMap_get_set_eq.
Qed.

(** What a decline does to a live session, whatever its status. *)
Lemma decline_live (st : Server) (socket : SocketId) (callId : CallId)
    (reason : option string) (call : Call.t) :
  JsMap.get callId (activeCalls st) = Some call →
  let st1 := on_call_decline socket callId reason st in
  (∀ h, callTimeouts st !! callId = Some h → timers st1 !! h = None) ∧
  callTimeouts st1 !! callId = None ∧
  emitted st1 = emitted st ++
    [(ToRoom (Call.callerSocketId call), CallDeclined callId (reason_or_default reason))] ∧
  JsMap.get callId (activeCalls st1) = None ∧
  messages st1 = messages st ∧
  tasks st1 = tasks st ∧
  errors st1 = errors st.
Proof.
  open_state st. server_cbn. intros ->.
  destruct (ct !! callId) eqn:E; server_cbn.
  - repeat split; try done.
    + intros h [= <-]. apply lookup_delete_eq.
    + apply lookup_delete_eq.
    + apply JsMap_get_delete_eq.
  - repeat split; try done. apply JsMap_get_delete_eq.
Qed.

Lemma decline_absent (st : Server) (socket : SocketId) (callId : CallId)
    (reason : option string) :
  JsMap.get callId (activeCalls st) = None →
  on_call_decline socket callId reason st = st.
Proof. intros H. unfold on_call_decline. by rewrite H. Qed.

(** C8: a decline for a live session cancels the recorded timer and drops
    the [callTimeouts] entry, sends one [audio:call:declined] to the
    caller's recorded socket room (with the reason given, or
    ["Call declined"] when none or an empty one is given), writes no
    history and removes the session; a decline processed right afterwards
    for the same [callId] leaves the whole state as it is, so it sends
    nothing and logs no error. *)
Theorem decline_then_decline_again (st : Server) (socket : SocketId) (callId : CallId)
    (reason : option string) (call : Call.t) :
  JsMap.get callId (activeCalls st) = Some call →
  let st1 := on_call_decline socket callId reason st in
  (∀ h, callTimeouts st !! callId = Some h → timers st1 !! h = None) ∧
  callTimeouts st1 !! callId = None ∧
  emitted st1 = emitted st ++
    [(ToRoom (Call.callerSocketId call), CallDeclined callId (reason_or_default reason))] ∧
  (∀ r, reason = Some r → str_truthy r = true → reason_or_default reason = r) ∧
  (reason = None → reason_or_default reason = "Call declined") ∧
  JsMap.get callId (activeCalls st1) = None ∧
  messages st1 = messages st ∧
  ∀ socket' reason', on_call_decline socket' callId reason' st1 = st1.
Proof.
  intros Hlive st1.
  destruct (decline_live st socket callId reason call Hlive)
    as (Hcancel & Hentry & Hem & Hgone & Hmsg & _).
  fold st1 in Hcancel, Hentry, Hem, Hgone, Hmsg.
  split; [exact Hcancel|]. split; [exact Hentry|]. split; [exact Hem|].
  split; [intros r -> Hr; simpl; by rewrite Hr|].
  split; [by intros ->|].
  split; [exact Hgone|]. split; [exact Hmsg|].
  intros socket' reason'. by apply decline_absent.
Qed.

Lemma decline_then_decline_again_witness :
  emitted (on_call_decline "sB" the_call (Some "busy") ringing_state)
  = emitted ringing_state ++ [(ToRoom "sA", CallDeclined the_call "busy")].
Proof.
  refine (proj1 (proj2 (proj2
    (decline_then_decline_again ringing_state "sB" the_call (Some "busy")
       ringing_call _)))).
  vm_compute. reflexivity.
Defined.

(** C10: the decline handler never reads [call.status].  For a session
    that is already active it still cancels whatever timer is on record,
    sends [audio:call:declined] to the caller's recorded socket room and
    removes the session; it creates no history document, suspends on no
    write and sends no [audio:call:ended].  Such a state is reached from
    any live session by an accept. *)
Theorem decline_of_active_call (st : Server) (socket : SocketId) (callId : CallId)
    (reason : option string) (call : Call.t) :
  JsMap.get callId (activeCalls st) = Some call →
  Call.status call = Active →
  let st1 := on_call_decline socket callId reason st in
  (∀ h, callTimeouts st !! callId = Some h → timers st1 !! h = None) ∧
  callTimeouts st1 !! callId = None ∧
  emitted_since st st1 =
    [(ToRoom (Call.callerSocketId call), CallDeclined callId (reason_or_default reason))] ∧
  (∀ tp, tp ∈ emitted_since st st1 → event_name tp.2 ≠ "audio:call:ended") ∧
  JsMap.get callId (activeCalls st1) = None ∧
  messages st1 = messages st ∧
  tasks st1 = tasks st ∧
  (∀ socket0 now0 st0 call0,
     JsMap.get callId (activeCalls st0) = Some call0 →
     ∃ call1, JsMap.get callId (activeCalls (on_call_accept socket0 callId now0 st0))
              = Some call1 ∧ Call.status call1 = Active).
Proof.
  intros Hlive Hact st1.
  destruct (decline_live st socket callId reason call Hlive)
    as (Hcancel & Hentry & Hem & Hgone & Hmsg & Htasks & _).
  fold st1 in Hcancel, Hentry, Hem, Hgone, Hmsg, Htasks.
  assert (Hsince : emitted_since st st1 =
    [(ToRoom (Call.callerSocketId call), CallDeclined callId (reason_or_default reason))]).
  { unfold emitted_since. rewrite Hem. by rewrite drop_app_length. }
  split; [exact Hcancel|]. split; [exact Hentry|]. split; [exact Hsince|].
  split.
  { rewrite Hsince. intros tp Htp. apply list_elem_of_singleton in Htp. by subst tp. }
  split; [exact Hgone|]. split; [exact Hmsg|]. split; [exact Htasks|].
  intros socket0 now0 st0 call0 Hlive0. exists (Call.accept now0 call0).
  split; [by apply accept_makes_active | done].
Qed.

Lemma decline_of_active_call_witness :
  JsMap.get the_call (activeCalls (on_call_decline "sB" the_call None active_state)) = None
  ∧ messages (on_call_decline "sB" the_call None active_state) = messages active_state.
Proof.
  pose proof (decline_of_active_call active_state "sB" the_call None active_call
                ltac:(vm_compute; reflexivity) ltac:(reflexivity)) as H.
  destruct H as (_ & _ & _ & _ & Hgone & Hmsg & _).
  exact (conj Hgone Hmsg).
Defined.

(** ** Explicit end, turn by turn *)

(** What an explicit end leaves behind, for each way its writes can settle:
    [docs] are the documents created and [errs] the lines logged. *)
Lemma end_run st socket callId duration now call outcomes docs errs :
  JsMap.get callId (activeCalls st) = Some call →
  let fd := finalDuration duration call now in
  let cs := callStatus (wasAccepted call) fd in
  let doc1 := Message.call_record (Call.caller call) (Call.receiver call) fd cs now in
  (∃ n1 n2, outcomes = [(WriteOk, n1); (WriteOk, n2)] ∧ errs = [] ∧
      docs = [doc1; Message.call_record (Call.receiver call) (Call.caller call) fd cs n1]) ∨
  (∃ n1 n2, outcomes = [(WriteOk, n1); (WriteThrows, n2)] ∧ docs = [doc1] ∧
      errs = ["Error creating call end records"]) ∨
  (∃ n1, outcomes = [(WriteThrows, n1)] ∧ docs = [] ∧
      errs = ["Error creating call end records"]) →
  ∃ st', run (end_turns socket callId duration now (nextTask st) outcomes) st = Some st' ∧
    messages st' = messages st ++ docs ∧
    emitted st' = emitted st ++ ended_events socket callId call fd st ∧
    errors st' = errors st ++ errs ∧
    activeCalls st' = JsMap.delete callId (activeCalls st) ∧
    callTimeouts st' = base.delete callId (callTimeouts st) ∧
    timers st' = timers (clear_call_timeout callId st) ∧
    onlineUsers st' = onlineUsers st ∧
    tasks st' = base.delete (nextTask st) (tasks st).
Proof.
  intros Hlive fd cs doc1 Hout. subst doc1 cs fd.
  pose proof (callTimeouts_cleared callId st) as Hct.
  open_state st. server_cbn_in Hlive.
  unfold end_turns, ended_events.
  destruct Hout as [(n1 & n2 & -> & -> & ->) | [(n1 & n2 & -> & -> & ->) | (n1 & -> & -> & ->)]];
    turns; rewrite Hlive; revert Hct; turns;
    destruct (ct !! callId) eqn:Ect; turns; intros Hct;
    (eexists; split; [reflexivity|]); server_cbn;
    rewrite <- ?app_assoc, ?app_nil_r; cbn [app];
    rewrite ?delete_insert_eq, ?delete_delete_eq, ?delete_insert_eq;
    repeat split; done.
Qed.

(** C4: an explicit end for a live session, with both writes succeeding.
    The duration [fd] is the one the client supplied if any, else the
    whole seconds since acceptance for an accepted call, else 0; the
    status is ["completed"] exactly when the call was accepted and
    [fd > 0], else ["missed"]; two documents with that status and duration
    are created, sender and receiver mirrored; [audio:call:ended] with
    [callId], [fd], [wasAccepted] and [endedBy] goes to both recorded
    socket rooms; the session is gone afterwards. *)
Theorem explicit_end_resolution (st : Server) (socket : SocketId) (callId : CallId)
    (duration : option Z) (now n1 n2 : Z) (call : Call.t) :
  JsMap.get callId (activeCalls st) = Some call →
  call_consistent call = true →
  ∃ (fd : Z) (resolved : string) (st' : Server),
    run (end_turns socket callId duration now (nextTask st)
           [(WriteOk, n1); (WriteOk, n2)]) st = Some st' ∧
    (∀ d, duration = Some d → fd = d) ∧
    (duration = None → Call.status call = Active →
       ∃ t, Call.acceptedAt call = Some t ∧ fd = (now - t) / 1000) ∧
    (duration = None → Call.status call = Ringing → fd = 0) ∧
    ((resolved = "completed" ∧ Call.status call = Active ∧ 0 < fd) ∨
     (resolved = "missed" ∧ ¬ (Call.status call = Active ∧ 0 < fd))) ∧
    messages st' = messages st ++
      [ Message.call_record (Call.caller call) (Call.receiver call) fd resolved now;
        Message.call_record (Call.receiver call) (Call.caller call) fd resolved n1 ] ∧
    emitted st' = emitted st ++
      [ (ToRoom (Call.callerSocketId call),
          CallEnded callId fd (wasAccepted call) (socketUserId st !! socket));
        (ToRoom (Call.receiverSocketId call),
          CallEnded callId fd (wasAccepted call) (socketUserId st !! socket)) ] ∧
    truthy (wasAccepted call) = is_active (Call.status call) ∧
    JsMap.get callId (activeCalls st') = None.
Proof.
  intros Hlive Hcons.
  destruct (end_run st socket callId duration now call
              [(WriteOk, n1); (WriteOk, n2)] _ [] Hlive
              (or_introl (ex_intro _ n1 (ex_intro _ n2 (conj eq_refl (conj eq_refl eq_refl))))))
    as (st' & Hrun & Hmsg & Hem & _ & Hcalls & _).
  exists (finalDuration duration call now),
         (callStatus (wasAccepted call) (finalDuration duration call now)), st'.
  assert (Hwa : truthy (wasAccepted call) = is_active (Call.status call)).
  { unfold call_consistent in Hcons. unfold wasAccepted, js_and.
    destruct (Call.status call), (Call.acceptedAt call); simpl in *; congruence. }
  split; [exact Hrun|].
  split; [by intros d ->|].
  split.
  { intros -> Hact. unfold call_consistent in Hcons. rewrite Hact in Hcons.
    unfold finalDuration, elapsed_seconds.
    destruct (Call.acceptedAt call) as [t|]; simpl in Hcons; [|discriminate].
    by exists t. }
  split.
  { intros -> Hring. unfold call_consistent in Hcons. rewrite Hring in Hcons.
    unfold finalDuration, elapsed_seconds.
    destruct (Call.acceptedAt call) as [t|]; simpl in Hcons; [discriminate|done]. }
  split.
  { unfold callStatus. rewrite Hwa.
    destruct (Call.status call); simpl.
    - right. split; [done|]. intros [? _]. discriminate.
    - destruct (0 <? finalDuration duration call now) eqn:Hpos.
      + left. apply Z.ltb_lt in Hpos. done.
      + right. apply Z.ltb_ge in Hpos. split; [done|]. intros [_ ?]. lia. }
  split; [exact Hmsg|].
  split; [exact Hem|].
  split; [exact Hwa|].
  rewrite Hcalls. apply JsMap_get_delete_eq.
Qed.

Lemma explicit_end_resolution_witness :
  ∃ fd resolved st',
    run (end_turns "sA" the_call None 9500 (nextTask active_state)
           [(WriteOk, 9600); (WriteOk, 9700)]) active_state = Some st' ∧
    fd = 7 ∧ resolved = "completed" ∧
    messages st' = [ Message.call_record "alice" "bob" fd resolved 9500;
                     Message.call_record "bob" "alice" fd resolved 9600 ].
Proof.
  destruct (explicit_end_resolution active_state "sA" the_call None 9500 9600 9700
              active_call ltac:(vm_compute; reflexivity) ltac:(reflexivity))
    as (fd & resolved & st' & Hrun & _ & Hfd & _ & Hres & Hmsg & _).
  exists fd, resolved, st'.
  destruct (Hfd eq_refl eq_refl) as (t & Ht & ->).
  injection Ht as <-.
  destruct Hres as [(-> & _) | (_ & Hno)].
  - repeat split; [exact Hrun | exact Hmsg].
  - exfalso. apply Hno. split; [reflexivity | reflexivity].
Defined.

(** C9: no handler asks whether the requesting socket belongs to a
    participant; the session is found by [callId] alone.  An
    [audio:call:end] from any socket at all, with both writes succeeding,
    creates the two documents, sends [audio:call:ended] to both recorded
    socket rooms with [endedBy] the [userId] registered on the requesting
    socket, and removes the session; an accept changes the state the same
    way whichever socket it comes from. *)
Theorem end_from_any_socket (st : Server) (socket : SocketId) (callId : CallId)
    (duration : option Z) (now n1 n2 : Z) (call : Call.t) :
  JsMap.get callId (activeCalls st) = Some call →
  let fd := finalDuration duration call now in
  let cs := callStatus (wasAccepted call) fd in
  (∃ st',
    run (end_turns socket callId duration now (nextTask st)
           [(WriteOk, n1); (WriteOk, n2)]) st = Some st' ∧
    JsMap.get callId (activeCalls st') = None ∧
    callTimeouts st' !! callId = None ∧
    messages st' = messages st ++
      [ Message.call_record (Call.caller call) (Call.receiver call) fd cs now;
        Message.call_record (Call.receiver call) (Call.caller call) fd cs n1 ] ∧
    emitted st' = emitted st ++
      [ (ToRoom (Call.callerSocketId call),
          CallEnded callId fd (wasAccepted call) (socketUserId st !! socket));
        (ToRoom (Call.receiverSocketId call),
          CallEnded callId fd (wasAccepted call) (socketUserId st !! socket)) ]) ∧
  (∀ socket', on_call_accept socket' callId now st = on_call_accept socket callId now st).
Proof.
  intros Hlive fd cs. split; [|done].
  destruct (end_run st socket callId duration now call
              [(WriteOk, n1); (WriteOk, n2)] _ [] Hlive
              (or_introl (ex_intro _ n1 (ex_intro _ n2 (conj eq_refl (conj eq_refl eq_refl))))))
    as (st' & Hrun & Hmsg & Hem & _ & Hcalls & Hct & _).
  exists st'. split; [exact Hrun|].
  split; [rewrite Hcalls; apply JsMap_get_delete_eq|].
  split; [rewrite Hct; apply lookup_delete_eq|].
  split; [exact Hmsg | exact Hem].
Qed.

Lemma end_from_any_socket_witness :
  ∃ st',
    run (end_turns "sC" the_call (Some 42) 9500 (nextTask active_state_with_carol)
           [(WriteOk, 9600); (WriteOk, 9700)]) active_state_with_carol = Some st' ∧
    JsMap.get the_call (activeCalls st') = None ∧
    emitted st' = emitted active_state_with_carol ++
      [ (ToRoom "sA", CallEnded the_call 42 (JsDate 2000) (Some "carol"));
        (ToRoom "sB", CallEnded the_call 42 (JsDate 2000) (Some "carol")) ].
Proof.
  destruct (proj1 (end_from_any_socket active_state_with_carol "sC" the_call (Some 42)
              9500 9600 9700 active_call ltac:(vm_compute; reflexivity)))
    as (st' & Hrun & Hgone & _ & _ & Hem).
  exists st'. repeat split; [exact Hrun | exact Hgone | exact Hem].
Defined.

(** ** The missed-call timeout, turn by turn *)

Lemma step_timer_not_due st h now tm :
  timers st !! h = Some tm →
  now < t_armedAt tm + t_delay tm →
  step (TimerFires h now) st = None.
Proof.
  intros Hh Hearly. simpl. rewrite Hh.
  by rewrite (proj2 (Z.leb_gt _ _) Hearly).
Qed.

(** What a timeout that finds its session ringing leaves behind, for each
    way its writes can settle. *)
Lemma timeout_run st h now tm call outcomes docs errs :
  timers st !! h = Some tm →
  t_armedAt tm + t_delay tm ≤ now →
  JsMap.get (t_callId tm) (activeCalls st) = Some call →
  Call.status call = Ringing →
  let doc1 := Message.call_record (Call.caller call) (Call.receiver call) 0 "missed" now in
  (∃ n1 n2, outcomes = [(WriteOk, n1); (WriteOk, n2)] ∧ errs = [] ∧
      docs = [doc1; Message.call_record (Call.receiver call) (Call.caller call) 0 "missed" n1]) ∨
  (∃ n1 n2, outcomes = [(WriteOk, n1); (WriteThrows, n2)] ∧ docs = [doc1] ∧
      errs = ["Error creating missed call records"]) ∨
  (∃ n1, outcomes = [(WriteThrows, n1)] ∧ docs = [] ∧
      errs = ["Error creating missed call records"]) →
  ∃ st', run (timeout_turns h now (nextTask st) outcomes) st = Some st' ∧
    messages st' = messages st ++ docs ∧
    emitted st' = emitted st ++ missed_events (t_callId tm) call ∧
    errors st' = errors st ++ errs ∧
    activeCalls st' = JsMap.delete (t_callId tm) (activeCalls st) ∧
    callTimeouts st' = base.delete (t_callId tm) (callTimeouts st) ∧
    timers st' = base.delete h (timers st) ∧
    onlineUsers st' = onlineUsers st ∧
    tasks st' = base.delete (nextTask st) (tasks st).
Proof.
  intros Hh Hdue Hlive Hring doc1 Hout. subst doc1.
  apply Z.leb_le in Hdue.
  open_state st. server_cbn_in Hh. server_cbn_in Hlive.
  unfold timeout_turns, missed_events.
  destruct Hout as [(n1 & n2 & -> & -> & ->) | [(n1 & n2 & -> & -> & ->) | (n1 & -> & -> & ->)]];
    turns; rewrite Hh, Hdue; turns; rewrite Hlive, Hring; turns;
    (eexists; split; [reflexivity|]); server_cbn;
    rewrite <- ?app_assoc, ?app_nil_r; cbn [app];
    rewrite ?delete_insert_eq, ?delete_delete_eq, ?delete_insert_eq;
    repeat split; done.
Qed.

(** C5: a timer armed for 30 seconds comes due while its session is still
    ringing, and both writes succeed.  Exactly two documents are created,
    caller to receiver and receiver to caller, both ["missed"] with
    duration 0; [audio:call:missed] goes to the caller's socket room with
    ["No answer"] / ["outgoing"] and to the receiver's with
    ["Missed call"] / ["incoming"]; the session, the [callTimeouts] entry
    and the pending timer are gone.  Before the 30 seconds are over the
    timer does not fire. *)
Theorem timeout_records_missed_call (st : Server) (h : TimerId) (callId : CallId)
    (armedAt now n1 n2 : Z) (call : Call.t) :
  timers st !! h = Some (mkTimer callId 30000 armedAt) →
  JsMap.get callId (activeCalls st) = Some call →
  Call.status call = Ringing →
  armedAt + 30000 ≤ now →
  (∃ st',
    run (timeout_turns h now (nextTask st) [(WriteOk, n1); (WriteOk, n2)]) st = Some st' ∧
    messages st' = messages st ++
      [ Message.mk (Call.caller call) (Call.receiver call) "call" ""
          (Message.mkCallData 0 "audio" "missed" now) "delivered";
        Message.mk (Call.receiver call) (Call.caller call) "call" ""
          (Message.mkCallData 0 "audio" "missed" n1) "delivered" ] ∧
    emitted st' = emitted st ++
      [ (ToRoom (Call.callerSocketId call), CallMissed callId "No answer" "outgoing");
        (ToRoom (Call.receiverSocketId call), CallMissed callId "Missed call" "incoming") ] ∧
    JsMap.get callId (activeCalls st') = None ∧
    callTimeouts st' !! callId = None ∧
    timers st' !! h = None) ∧
  (∀ early, early < armedAt + 30000 → step (TimerFires h early) st = None).
Proof.
  intros Hh Hlive Hring Hdue. split.
  - destruct (timeout_run st h now _ call [(WriteOk, n1); (WriteOk, n2)] _ [] Hh Hdue Hlive Hring
                (or_introl (ex_intro _ n1 (ex_intro _ n2 (conj eq_refl (conj eq_refl eq_refl))))))
      as (st' & Hrun & Hmsg & Hem & _ & Hcalls & Hct & Htm & _).
    exists st'. simpl in *.
    split; [exact Hrun|]. split; [exact Hmsg|]. split; [exact Hem|].
    split; [rewrite Hcalls; apply JsMap_get_delete_eq|].
    split; [rewrite Hct; apply lookup_delete_eq | rewrite Htm; apply lookup_delete_eq].
  - intros early Hearly. by apply (step_timer_not_due st h early _ Hh).
Qed.

Lemma timeout_records_missed_call_witness :
  ∃ st',
    run (timeout_turns 0 31000 (nextTask ringing_state) [(WriteOk, 31005); (WriteOk, 31010)])
        ringing_state = Some st' ∧
    messages st' =
      [ Message.call_record "alice" "bob" 0 "missed" 31000;
        Message.call_record "bob" "alice" 0 "missed" 31005 ] ∧
    JsMap.get the_call (activeCalls st') = None.
Proof.
  destruct (proj1 (timeout_records_missed_call ringing_state 0%nat the_call 1000 31000
              31005 31010 ringing_call
              ltac:(vm_compute; reflexivity) ltac:(vm_compute; reflexivity)
              ltac:(reflexivity) ltac:(lia)))
    as (st' & Hrun & Hmsg & _ & Hgone & _).
  exists st'. repeat split; [exact Hrun | exact Hmsg | exact Hgone].
Defined.

(** ** Failing history writes *)

(** C7: when a history write throws, in the explicit end or in the
    timeout callback, at the first write or at the second, the error is
    logged by the handler and the run ends like the one whose writes
    succeed: the same [audio:call:ended] (or [audio:call:missed]) events
    to both recorded socket rooms, the session removed, the same timeout
    entries and pending timers, no handler left suspended. *)
Theorem history_failure_still_notifies :
  (∀ st socket callId duration now call failing m1 m2,
     JsMap.get callId (activeCalls st) = Some call →
     (∃ n1, failing = [(WriteThrows, n1)]) ∨
     (∃ n1 n2, failing = [(WriteOk, n1); (WriteThrows, n2)]) →
     ∃ st_ok st_fail,
       run (end_turns socket callId duration now (nextTask st)
              [(WriteOk, m1); (WriteOk, m2)]) st = Some st_ok ∧
       run (end_turns socket callId duration now (nextTask st) failing) st = Some st_fail ∧
       errors st_fail = errors st ++ ["Error creating call end records"] ∧
       emitted st_fail = emitted st ++
         ended_events socket callId call (finalDuration duration call now) st ∧
       emitted st_fail = emitted st_ok ∧
       activeCalls st_fail = activeCalls st_ok ∧
       JsMap.get callId (activeCalls st_fail) = None ∧
       callTimeouts st_fail = callTimeouts st_ok ∧
       timers st_fail = timers st_ok ∧
       tasks st_fail = tasks st_ok) ∧
  (∀ st h now tm call failing m1 m2,
     timers st !! h = Some tm →
     t_armedAt tm + t_delay tm ≤ now →
     JsMap.get (t_callId tm) (activeCalls st) = Some call →
     Call.status call = Ringing →
     (∃ n1, failing = [(WriteThrows, n1)]) ∨
     (∃ n1 n2, failing = [(WriteOk, n1); (WriteThrows, n2)]) →
     ∃ st_ok st_fail,
       run (timeout_turns h now (nextTask st) [(WriteOk, m1); (WriteOk, m2)]) st
         = Some st_ok ∧
       run (timeout_turns h now (nextTask st) failing) st = Some st_fail ∧
       errors st_fail = errors st ++ ["Error creating missed call records"] ∧
       emitted st_fail = emitted st ++ missed_events (t_callId tm) call ∧
       emitted st_fail = emitted st_ok ∧
       activeCalls st_fail = activeCalls st_ok ∧
       JsMap.get (t_callId tm) (activeCalls st_fail) = None ∧
       callTimeouts st_fail = callTimeouts st_ok ∧
       timers st_fail = timers st_ok ∧
       tasks st_fail = tasks st_ok).
Proof.
  split.
  - intros st socket callId duration now call failing m1 m2 Hlive Hfail.
    destruct (end_run st socket callId duration now call
                [(WriteOk, m1); (WriteOk, m2)] _ [] Hlive
                (or_introl (ex_intro _ m1 (ex_intro _ m2 (conj eq_refl (conj eq_refl eq_refl))))))
      as (st_ok & Hrun & _ & Hem & _ & Hcalls & Hct & Htm & _ & Htk).
    assert (∃ docs, (∃ n1 n2, failing = [(WriteOk, n1); (WriteThrows, n2)] ∧
                       docs = [Message.call_record (Call.caller call) (Call.receiver call)
                                 (finalDuration duration call now)
                                 (callStatus (wasAccepted call) (finalDuration duration call now))
                                 now] ∧
                       ["Error creating call end records"] = ["Error creating call end records"]) ∨
                    (∃ n1, failing = [(WriteThrows, n1)] ∧ docs = [] ∧
                       ["Error creating call end records"] = ["Error creating call end records"]))
      as (docs & Hshape).
    { destruct Hfail as [(n1 & ->) | (n1 & n2 & ->)].
      - exists []. right. by exists n1.
      - eexists. left. by exists n1, n2. }
    destruct (end_run st socket callId duration now call failing docs
                ["Error creating call end records"] Hlive (or_intror Hshape))
      as (st_fail & Hrun' & _ & Hem' & Herr' & Hcalls' & Hct' & Htm' & _ & Htk').
    exists st_ok, st_fail.
    repeat split; try congruence.
    rewrite Hcalls'. apply JsMap_get_delete_eq.
  - intros st h now tm call failing m1 m2 Hh Hdue Hlive Hring Hfail.
    destruct (timeout_run st h now tm call [(WriteOk, m1); (WriteOk, m2)] _ []
                Hh Hdue Hlive Hring
                (or_introl (ex_intro _ m1 (ex_intro _ m2 (conj eq_refl (conj eq_refl eq_refl))))))
      as (st_ok & Hrun & _ & Hem & _ & Hcalls & Hct & Htm & _ & Htk).
    assert (∃ docs, (∃ n1 n2, failing = [(WriteOk, n1); (WriteThrows, n2)] ∧
                       docs = [Message.call_record (Call.caller call) (Call.receiver call)
                                 0 "missed" now] ∧
                       ["Error creating missed call records"]
                       = ["Error creating missed call records"]) ∨
                    (∃ n1, failing = [(WriteThrows, n1)] ∧ docs = [] ∧
                       ["Error creating missed call records"]
                       = ["Error creating missed call records"]))
      as (docs & Hshape).
    { destruct Hfail as [(n1 & ->) | (n1 & n2 & ->)].
      - exists []. right. by exists n1.
      - eexists. left. by exists n1, n2. }
    destruct (timeout_run st h now tm call failing docs
                ["Error creating missed call records"] Hh Hdue Hlive Hring (or_intror Hshape))
      as (st_fail & Hrun' & _ & Hem' & Herr' & Hcalls' & Hct' & Htm' & _ & Htk').
    exists st_ok, st_fail.
    repeat split; try congruence.
    rewrite Hcalls'. apply JsMap_get_delete_eq.
Qed.

Lemma history_failure_still_notifies_witness :
  ∃ st_fail,
    run (end_turns "sA" the_call (Some 42) 9500 (nextTask active_state)
           [(WriteThrows, 9600)]) active_state = Some st_fail ∧
    errors st_fail = ["Error creating call end records"] ∧
    emitted st_fail = emitted active_state ++
      [ (ToRoom "sA", CallEnded the_call 42 (JsDate 2000) (Some "alice"));
        (ToRoom "sB", CallEnded the_call 42 (JsDate 2000) (Some "alice")) ] ∧
    JsMap.get the_call (activeCalls st_fail) = None.
Proof.
  destruct (proj1 history_failure_still_notifies active_state "sA" the_call (Some 42) 9500
              active_call [(WriteThrows, 9600)] 9600 9700
              ltac:(vm_compute; reflexivity)
              (or_introl (ex_intro _ 9600 eq_refl)))
    as (st_ok & st_fail & _ & Hrun & Herr & Hem & _ & _ & Hgone & _).
  exists st_fail. repeat split; [exact Hrun | exact Herr | exact Hem | exact Hgone].
Defined.

(** ** Presence *)

Lemma disconnect_call_frame socket now st entry :
  let st' := disconnect_call socket now st entry in
  onlineUsers st' = onlineUsers st ∧ socketUserId st' = socketUserId st ∧
  ∃ more, emitted st' = emitted st ++ more.
Proof.
  destruct entry as [callId call]. open_state st. server_cbn.
  destruct (bool_decide (Call.callerSocketId call = socket)) eqn:E1;
    destruct (bool_decide (Call.receiverSocketId call = socket)) eqn:E2;
    cbn [orb]; destruct (ct !! callId); server_cbn;
    repeat split; try done; try (by eexists); exists []; by rewrite app_nil_r.
Qed.

Lemma disconnect_calls_frame socket now calls st :
  let st' := fold_left (disconnect_call socket now) calls st in
  onlineUsers st' = onlineUsers st ∧ socketUserId st' = socketUserId st ∧
  ∃ more, emitted st' = emitted st ++ more.
Proof.
  revert st. induction calls as [|entry calls IH]; intros st; cbn [fold_left].
  - repeat split. exists []. by rewrite app_nil_r.
  - destruct (IH (disconnect_call socket now st entry)) as (Hou & Hsu & more & Hem).
    destruct (disconnect_call_frame socket now st entry) as (Hou1 & Hsu1 & more1 & Hem1).
    repeat split; [congruence | congruence |].
    exists (more1 ++ more). rewrite Hem, Hem1. by rewrite app_assoc.
Qed.

(** Disconnect of any socket that carries a non-empty [userId]: the
    presence entry of that user goes and the offline event is broadcast,
    whichever socket the entry names. *)
Lemma disconnect_clears_presence st socket userId now :
  socketUserId st !! socket = Some userId →
  str_truthy userId = true →
  onlineUsers (on_disconnect socket now st) !! userId = None ∧
  ∃ more, emitted (on_disconnect socket now st)
          = emitted st ++ (Broadcast, UserStatus userId false) :: more.
Proof.
  intros Hsu Htr. unfold on_disconnect. rewrite Hsu, Htr.
  match goal with
  | |- context [fold_left ?f ?l ?s] =>
      destruct (disconnect_calls_frame socket now l s) as (Hou & _ & more & Hem)
  end.
  rewrite Hou, Hem. clear Hou Hem.
  open_state st. server_cbn. split; [apply lookup_delete_eq|].
  exists more. by rewrite <- app_assoc.
Qed.

(** C1, as the server has it: the disconnect handler looks at
    [socket.userId] only.  After [u] (a non-empty id) has announced
    itself on [c1] and then on [c2], the entry of [u] names [c2]; a
    disconnect of [c1] removes that entry all the same and broadcasts
    [user:status] offline for [u]. *)
Theorem stale_disconnect_clears_presence (st : Server) (u : UserId) (c1 c2 : SocketId)
    (now : Z) :
  str_truthy u = true →
  let st2 := on_user_online c2 u (on_user_online c1 u st) in
  let st3 := on_disconnect c1 now st2 in
  onlineUsers st2 !! u = Some c2 ∧
  onlineUsers st3 !! u = None ∧
  ∃ more, emitted st3 = emitted st2 ++ (Broadcast, UserStatus u false) :: more.
Proof.
  intros Htr st2 st3.
  assert (Hsu : socketUserId st2 !! c1 = Some u).
  { subst st2. open_state st. unfold on_user_online. rewrite Htr. server_cbn.
    destruct (decide (c2 = c1)) as [->|Hne].
    - apply lookup_insert_eq.
    - rewrite lookup_insert_ne by done. apply lookup_insert_eq. }
  split.
  { subst st2. open_state st. unfold on_user_online. rewrite Htr. server_cbn.
    apply lookup_insert_eq. }
  subst st3. by apply disconnect_clears_presence.
Qed.

Lemma stale_disconnect_clears_presence_witness :
  onlineUsers (on_disconnect "s1" 5000
                 (on_user_online "s2" "alice" (on_user_online "s1" "alice" init)))
    !! "alice" = None.
Proof.
  exact (proj1 (proj2 (stale_disconnect_clears_presence init "alice" "s1" "s2" 5000
                         eq_refl))).
Defined.

(** C1, as the specification states it, fails: alice announces herself on
    socket s1 and then on s2; when s1 disconnects her entry (s2) is
    removed. *)
Lemma stale_disconnect_not_guarded :
  ¬ stale_disconnect_guarded "alice" "s1" "s2" 5000 init.
Proof.
  unfold stale_disconnect_guarded. intros [Hkept _].
  vm_compute in Hkept. discriminate Hkept.
Qed.

(** ** Session creation *)

(** C3, as the server has it: an initiate to an online receiver stores a
    fresh ringing session under its [callId] whether or not one is there
    already, arms a new 30 second timer and records it in [callTimeouts],
    cancels no timer, sends [audio:call:initiated] to the requesting
    socket and [audio:call:incoming] to the receiver's, and neither sends
    nor logs an error. *)
Theorem initiate_overwrites_session (st : Server) (socket : SocketId)
    (receiverId callerId : UserId) (callerInfo : string) (now : Z)
    (receiverSocketId : SocketId) :
  onlineUsers st !! receiverId = Some receiverSocketId →
  str_truthy receiverSocketId = true →
  let callId := make_callId callerId receiverId now in
  let st' := on_call_initiate socket receiverId callerId callerInfo now st in
  JsMap.get callId (activeCalls st')
    = Some (Call.mk callId callerId receiverId socket receiverSocketId Ringing now None
              callerInfo) ∧
  callTimeouts st' !! callId = Some (nextTimer st) ∧
  timers st' !! nextTimer st = Some (mkTimer callId 30000 now) ∧
  (∀ h, h ≠ nextTimer st → timers st' !! h = timers st !! h) ∧
  emitted st' = emitted st ++
    [ (ToSocket socket, CallInitiated callId receiverId);
      (ToRoom receiverSocketId, CallIncoming callId callerInfo) ] ∧
  errors st' = errors st.
Proof.
  intros Hon Htr callId st'. subst st'. open_state st. server_cbn_in Hon.
  server_cbn. rewrite Hon, Htr. server_cbn.
  split; [apply JsMap_get_set_eq|].
  split; [apply lookup_insert_eq|].
  split; [apply lookup_insert_eq|].
  split; [intros h Hne; by rewrite lookup_insert_ne|].
  split; [by rewrite <- app_assoc | done].
Qed.

Lemma initiate_overwrites_session_witness :
  JsMap.get the_call
    (activeCalls (on_call_initiate "sA2" "bob" "alice" "Alice" 1000 ringing_state))
  = Some (new_call the_call "alice" "bob" "sA2" "sB" 1000 "Alice").
Proof.
  exact (proj1 (initiate_overwrites_session ringing_state "sA2" "bob" "alice" "Alice" 1000
                  "sB" ltac:(vm_compute; reflexivity) eq_refl)).
Defined.

(** C3, as the specification states it, fails: while the call of alice to
    bob is ringing, a second initiate with the same caller and receiver
    ids arrives in the same millisecond on another socket; it yields the
    same [callId], and the stored session is replaced by one that names
    the other socket. *)
Lemma second_create_not_rejected :
  ¬ second_create_rejected "sA2" "bob" "alice" "Alice" 1000 ringing_state.
Proof.
  unfold second_create_rejected. intros Hkeep.
  specialize (Hkeep ringing_call ltac:(vm_compute; reflexivity)).
  vm_compute in Hkeep. discriminate Hkeep.
Qed.

(** ** What is in the stores while a handler awaits *)

(** C2, as the server has it.  The explicit end cancels the timer and
    drops the [callTimeouts] entry before it awaits its first write, but
    the session stays in [activeCalls] while it is suspended; the timeout
    callback leaves both the session and the [callTimeouts] entry in place
    while it is suspended.  Each removes them in its last turn, after the
    writes have settled and the events are sent.  An event for the same
    [callId] processed in between finds the session in the store. *)
Theorem stores_while_awaiting :
  (∀ st socket callId duration now call,
     JsMap.get callId (activeCalls st) = Some call →
     let st1 := on_call_end socket callId duration now st in
     callTimeouts st1 !! callId = None ∧
     (∀ h, callTimeouts st !! callId = Some h → timers st1 !! h = None) ∧
     (∃ t, tasks st1 !! nextTask st = Some t ∧ task_callId t = callId) ∧
     JsMap.get callId (activeCalls st1) = Some call ∧
     messages st1 = messages st ∧ emitted st1 = emitted st ∧
     ∀ n1 n2, ∃ st',
       run (map (settle (nextTask st)) [(WriteOk, n1); (WriteOk, n2)]) st1 = Some st' ∧
       JsMap.get callId (activeCalls st') = None) ∧
  (∀ st h now tm call,
     timers st !! h = Some tm →
     t_armedAt tm + t_delay tm ≤ now →
     JsMap.get (t_callId tm) (activeCalls st) = Some call →
     Call.status call = Ringing →
     ∃ st1, step (TimerFires h now) st = Some st1 ∧
       (∃ t, tasks st1 !! nextTask st = Some t ∧ task_callId t = t_callId tm) ∧
       JsMap.get (t_callId tm) (activeCalls st1) = Some call ∧
       callTimeouts st1 = callTimeouts st ∧
       messages st1 = messages st ∧ emitted st1 = emitted st ∧
       ∀ n1 n2, ∃ st',
         run (map (settle (nextTask st)) [(WriteOk, n1); (WriteOk, n2)]) st1 = Some st' ∧
         JsMap.get (t_callId tm) (activeCalls st') = None ∧
         callTimeouts st' !! t_callId tm = None).
Proof.
  split.
  - intros st socket callId duration now call Hlive st1.
    assert (Hlast : ∀ n1 n2, ∃ st',
              run (map (settle (nextTask st)) [(WriteOk, n1); (WriteOk, n2)]) st1 = Some st' ∧
              JsMap.get callId (activeCalls st') = None).
    { intros n1 n2.
      destruct (end_run st socket callId duration now call
                  [(WriteOk, n1); (WriteOk, n2)] _ [] Hlive
                  (or_introl (ex_intro _ n1 (ex_intro _ n2 (conj eq_refl (conj eq_refl eq_refl))))))
        as (st' & Hrun & _ & _ & _ & Hcalls & _).
      exists st'. split; [exact Hrun|]. rewrite Hcalls. apply JsMap_get_delete_eq. }
    revert Hlast. subst st1. open_state st. server_cbn_in Hlive.
    server_cbn. rewrite Hlive.
    destruct (ct !! callId) eqn:Ect; server_cbn; intros Hlast.
    + split; [apply lookup_delete_eq|].
      split; [intros h [= <-]; apply lookup_delete_eq|].
      split; [eexists; split; [apply lookup_insert_eq | reflexivity]|].
      repeat split; done.
    + split; [done|]. split; [done|].
      split; [eexists; split; [apply lookup_insert_eq | reflexivity]|].
      repeat split; done.
  - intros st h now tm call Hh Hdue Hlive Hring.
    assert (Hlast : ∀ n1 n2, ∃ st',
              run (timeout_turns h now (nextTask st) [(WriteOk, n1); (WriteOk, n2)]) st
                = Some st' ∧
              JsMap.get (t_callId tm) (activeCalls st') = None ∧
              callTimeouts st' !! t_callId tm = None).
    { intros n1 n2.
      destruct (timeout_run st h now tm call [(WriteOk, n1); (WriteOk, n2)] _ []
                  Hh Hdue Hlive Hring
                  (or_introl (ex_intro _ n1 (ex_intro _ n2 (conj eq_refl (conj eq_refl eq_refl))))))
        as (st' & Hrun & _ & _ & _ & Hcalls & Hct & _).
      exists st'. split; [exact Hrun|].
      split; [rewrite Hcalls; apply JsMap_get_delete_eq | rewrite Hct; apply lookup_delete_eq]. }
    revert Hlast. unfold timeout_turns. cbn [run].
    apply Z.leb_le in Hdue.
    open_state st. server_cbn_in Hh. server_cbn_in Hlive.
    server_cbn. rewrite Hh, Hdue. server_cbn. rewrite Hlive, Hring. server_cbn.
    intros Hlast. eexists. split; [reflexivity|]. server_cbn.
    split; [eexists; split; [apply lookup_insert_eq | reflexivity]|].
    repeat split; done.
Qed.

Lemma stores_while_awaiting_witness :
  JsMap.get the_call (activeCalls (on_call_end "sA" the_call (Some 42) 9000 active_state))
  = Some active_call.
Proof.
  pose proof (proj1 stores_while_awaiting active_state "sA" the_call (Some 42) 9000
                active_call ltac:(vm_compute; reflexivity)) as H.
  exact (proj1 (proj2 (proj2 (proj2 H)))).
Defined.

(** C2, as the specification states it, fails: the explicit end suspends
    on its write with the session still in the store, and when both parties
    hang up at nearly the same time the second [audio:call:end] is processed
    in full: four history documents and four [audio:call:ended] events for
    one call. *)
Lemma end_not_resolved_before_await :
  ¬ resolved_before_await (CallEnd "sA" the_call (Some 42) 9000) active_state
  ∧ ∃ st, run double_end init = Some st ∧
          length (messages st) = 4%nat ∧
          length (filter is_ended (emitted st)) = 4%nat.
Proof.
  split.
  - intros Hres.
    destruct (Hres (on_call_end "sA" the_call (Some 42) 9000 active_state) 0%nat
                (EndAwait1 "sA" the_call active_call 42 (JsDate 2000) "completed"
                   (Message.call_record "alice" "bob" 42 "completed" 9000))
                eq_refl ltac:(vm_compute; reflexivity) ltac:(vm_compute; reflexivity))
      as [Hgone _].
    vm_compute in Hgone. discriminate Hgone.
  - eexists. split; [vm_compute; reflexivity|].
    split; vm_compute; reflexivity.
Qed.

(** ** Timers that were cancelled stay cancelled *)

Lemma quiet_refl st : quiet st st.
Proof.
  repeat split; try done. exists []. by rewrite app_nil_r.
Qed.

Lemma quiet_trans st1 st2 st3 : quiet st1 st2 → quiet st2 st3 → quiet st1 st3.
Proof.
  intros (Hn & Ht & Hc & Hk & m1 & He1 & Hf1) (Hn' & Ht' & Hc' & Hk' & m2 & He2 & Hf2).
  split; [congruence|].
  split; [intros h tm H; by apply Ht, Ht'|].
  split; [intros c h H; by apply Hc, Hc'|].
  split; [intros tid t H Hm; apply Hk; [by apply Hk'|done]|].
  exists (m1 ++ m2). split; [by rewrite He2, He1, app_assoc|].
  by apply Forall_app.
Qed.

Lemma lookup_delete_Some_inv `{Countable K} {A} (m : gmap K A) (i j : K) (x : A) :
  base.delete i m !! j = Some x → m !! j = Some x.
Proof. intros Hd. apply lookup_delete_Some in Hd. tauto. Qed.

Ltac quiet_goal :=
  unfold quiet; server_cbn;
  split; [reflexivity|];
  split; [intros ? ? ?; eauto using lookup_delete_Some_inv|];
  split; [intros ? ? ?; eauto using lookup_delete_Some_inv|];
  split; [intros ? ? ? ?; eauto|].

Lemma clear_call_timeout_quiet callId st : quiet st (clear_call_timeout callId st).
Proof.
  open_state st. server_cbn. destruct (ct !! callId); server_cbn.
  - quiet_goal. exists []. by rewrite app_nil_r.
  - apply quiet_refl.
Qed.





Lemma disconnect_call_quiet socket now st entry :
  quiet st (disconnect_call socket now st entry).
Proof.
  destruct entry as [callId call]. open_state st. server_cbn.
  destruct (bool_decide (Call.callerSocketId call = socket)) eqn:E1;
    destruct (bool_decide (Call.receiverSocketId call = socket)) eqn:E2;
    cbn [orb]; try apply quiet_refl;
    destruct (ct !! callId); server_cbn; quiet_goal;
    (eexists; split; [reflexivity|]; by repeat constructor).
Qed.

Lemma disconnect_calls_quiet socket now calls st :
  quiet st (fold_left (disconnect_call socket now) calls st).
Proof.
  revert st. induction calls as [|entry calls IH]; intros st; cbn [fold_left].
  - apply quiet_refl.
  - eapply quiet_trans; [apply disconnect_call_quiet | apply IH].
Qed.

Lemma on_disconnect_quiet socket now st : quiet st (on_disconnect socket now st).
Proof.
  unfold on_disconnect.
  eapply quiet_trans; [|apply disconnect_calls_quiet].
  destruct (socketUserId st !! socket) as [userId|]; [|apply quiet_refl].
  destruct (str_truthy userId); [|apply quiet_refl].
  open_state st. server_cbn. quiet_goal.
  eexists. split; [reflexivity|]. by repeat constructor.
Qed.



















(** ** Sessions are active exactly when accepted *)

Lemma JsMap_get_set_inv {V} k k' (v x : V) m :
  JsMap.get k' (JsMap.set k v m) = Some x → x = v ∨ JsMap.get k' m = Some x.
Proof.
  destruct (decide (k = k')) as [->|Hne].
  - rewrite JsMap_get_set_eq. intros [= <-]. by left.
  - rewrite JsMap_get_set_ne by done. by right.
Qed.

Lemma JsMap_get_delete_inv {V} k k' (x : V) m :
  JsMap.get k' (JsMap.delete k m) = Some x → JsMap.get k' m = Some x.
Proof.
  destruct (decide (k = k')) as [->|Hne].
  - by rewrite JsMap_get_delete_eq.
  - by rewrite JsMap_get_delete_ne.
Qed.

Ltac calls_goal Hcons :=
  let c' := fresh "c'" in
  let x := fresh "x" in
  let Hget := fresh "Hget" in
  unfold calls_consistent in *; server_cbn; intros c' x Hget;
  repeat apply JsMap_get_delete_inv in Hget;
  try (apply JsMap_get_set_inv in Hget; destruct Hget as [-> | Hget]; [reflexivity|]);
  eapply Hcons; exact Hget.

Lemma disconnect_calls_consistent socket now calls st :
  calls_consistent st →
  calls_consistent (fold_left (disconnect_call socket now) calls st).
Proof.
  revert st. induction calls as [|[callId call] calls IH]; intros st Hcons;
    cbn [fold_left]; [done|].
  apply IH. clear IH. open_state st. server_cbn.
  destruct (bool_decide (Call.callerSocketId call = socket));
    destruct (bool_decide (Call.receiverSocketId call = socket));
    cbn [orb]; try done; destruct (ct !! callId); calls_goal Hcons.
Qed.

Lemma step_calls_consistent e st st' :
  step e st = Some st' → calls_consistent st → calls_consistent st'.
Proof.
  intros Hstep Hcons. destruct e; cbn [step] in Hstep.
  - injection Hstep as <-. open_state st. server_cbn.
    destruct (str_truthy userId); [calls_goal Hcons | done].
  - injection Hstep as <-. open_state st. server_cbn.
    destruct (ou !! receiverId) as [rs|]; [destruct (str_truthy rs)|];
      calls_goal Hcons.
  - injection Hstep as <-. open_state st. server_cbn.
    destruct (JsMap.get callId ac) as [call|]; [|done].
    destruct (ct !! callId); calls_goal Hcons.
  - injection Hstep as <-. open_state st. server_cbn.
    destruct (JsMap.get callId ac) as [call|]; [|done].
    destruct (ct !! callId); calls_goal Hcons.
  - injection Hstep as <-. open_state st. server_cbn.
    destruct (JsMap.get callId ac) as [call|]; [|done].
    destruct (ct !! callId); calls_goal Hcons.
  - injection Hstep as <-. unfold on_disconnect.
    apply disconnect_calls_consistent.
    destruct (socketUserId st !! socket) as [userId|]; [|done].
    destruct (str_truthy userId); [|done].
    open_state st. calls_goal Hcons.
  - open_state st. server_cbn_in Hstep.
    destruct (tmrs !! h) as [tm|]; [|done].
    destruct (t_armedAt tm + t_delay tm <=? now); [|done].
    injection Hstep as <-. server_cbn.
    destruct (JsMap.get (t_callId tm) ac) as [call|];
      [destruct (is_ringing (Call.status call))|]; calls_goal Hcons.
  - open_state st. server_cbn_in Hstep.
    destruct (tk !! tid) as [t0|]; [|done].
    injection Hstep as <-.
    destruct t0, r; repeat (progress server_cbn); calls_goal Hcons.
Qed.

(** In every state the server can reach, each stored session is active
    exactly when it carries an acceptance time. *)
Lemma reachable_calls_consistent st : reachable st → calls_consistent st.
Proof.
  intros [es Hrun].
  assert (Hgen : ∀ es s s', calls_consistent s → run es s = Some s' → calls_consistent s').
  { clear. induction es as [|e es IH]; intros s s' Hcons; cbn [run].
    - by intros [= <-].
    - destruct (step e s) as [s1|] eqn:Hstep; [|done].
      apply IH. by eapply step_calls_consistent. }
  eapply Hgen; [|exact Hrun]. intros c call Hget. discriminate Hget.
Qed.

(** ** Handlers whose turns are interleaved with other events *)

Lemma disconnect_calls_tasks socket now calls st :
  tasks (fold_left (disconnect_call socket now) calls st) = tasks st ∧
  nextTask (fold_left (disconnect_call socket now) calls st) = nextTask st.
Proof.
  revert st. induction calls as [|[callId call] calls IH]; intros st;
    cbn [fold_left]; [done|].
  destruct (IH (disconnect_call socket now st (callId, call))) as [-> ->].
  open_state st. server_cbn.
  destruct (bool_decide (Call.callerSocketId call = socket));
    destruct (bool_decide (Call.receiverSocketId call = socket));
    cbn [orb]; try done; destruct (ct !! callId); server_cbn; done.
Qed.

(** A suspended handler stays suspended, as it is, until its own write
    settles. *)
Lemma step_keeps_task e st st' tid t :
  step e st = Some st' →
  (tid < nextTask st)%nat → tasks st !! tid = Some t →
  leaves_alone tid e →
  tasks st' !! tid = Some t ∧ (tid < nextTask st')%nat.
Proof.
  intros Hstep Hlt Hin Halone. destruct e; cbn [step] in Hstep.
  - injection Hstep as <-. open_state st. server_cbn.
    destruct (str_truthy userId); server_cbn; done.
  - injection Hstep as <-. open_state st. server_cbn.
    destruct (ou !! receiverId) as [rs|]; [destruct (str_truthy rs)|]; server_cbn; done.
  - injection Hstep as <-. open_state st. server_cbn.
    destruct (JsMap.get callId ac) as [call|]; [|done].
    destruct (ct !! callId); server_cbn; done.
  - injection Hstep as <-. open_state st. server_cbn.
    destruct (JsMap.get callId ac) as [call|]; [|done].
    destruct (ct !! callId); server_cbn; done.
  - injection Hstep as <-. open_state st. server_cbn_in Hlt. server_cbn_in Hin.
    server_cbn. destruct (JsMap.get callId ac) as [call|]; [|done].
    destruct (ct !! callId); server_cbn;
      (split; [rewrite lookup_insert_ne by lia; done | lia]).
  - injection Hstep as <-. unfold on_disconnect.
    match goal with
    | |- context [fold_left ?f ?l ?s] =>
        destruct (disconnect_calls_tasks socket now l s) as [-> ->]
    end.
    destruct (socketUserId st !! socket) as [userId|]; [|done].
    destruct (str_truthy userId); [|done].
    open_state st. server_cbn. done.
  - open_state st. server_cbn_in Hstep. server_cbn_in Hlt. server_cbn_in Hin.
    destruct (tmrs !! h) as [tm|]; [|done].
    destruct (t_armedAt tm + t_delay tm <=? now); [|done].
    injection Hstep as <-. server_cbn.
    destruct (JsMap.get (t_callId tm) ac) as [call|];
      [destruct (is_ringing (Call.status call))|]; server_cbn; try done.
    split; [rewrite lookup_insert_ne by lia; done | lia].
  - assert (Hne : tid0 ≠ tid) by (intros ->; by eapply Halone).
    open_state st. server_cbn_in Hstep. server_cbn_in Hlt. server_cbn_in Hin.
    destruct (tk !! tid0) as [t0|]; [|done].
    injection Hstep as <-.
    destruct t0, r; repeat (progress server_cbn);
      (split; [|done]);
      rewrite ?lookup_insert_ne by done; by rewrite lookup_delete_ne.
Qed.

Lemma run_keeps_task es st st' tid t :
  run es st = Some st' →
  (tid < nextTask st)%nat → tasks st !! tid = Some t →
  Forall (leaves_alone tid) es →
  tasks st' !! tid = Some t ∧ (tid < nextTask st')%nat.
Proof.
  revert st. induction es as [|e es IH]; intros st; cbn [run].
  - by intros [= <-].
  - destruct (step e st) as [s1|] eqn:Hstep; [|done].
    intros Hrun Hlt Hin Halone. apply Forall_cons in Halone. destruct Halone as [He Hes].
    destruct (step_keeps_task e st s1 tid t Hstep Hlt Hin He) as [Hin1 Hlt1].
    by eapply IH.
Qed.

(** X21: The explicit end with any other events running while it awaits its
    writes: whatever they do, when its first write settles the caller's
    document is created, and when its second settles the receiver's
    document is created, the two [audio:call:ended] events are sent and the
    session is gone. *)
Lemma end_under_interleaving st socket callId duration now call n1 n2 :
  JsMap.get callId (activeCalls st) = Some call →
  let tid := nextTask st in
  let fd := finalDuration duration call now in
  let cs := callStatus (wasAccepted call) fd in
  ∀ es1 st1,
    run (CallEnd socket callId duration now :: es1) st = Some st1 →
    Forall (leaves_alone tid) es1 →
    ∃ st2, step (WriteSettles tid WriteOk n1) st1 = Some st2 ∧
      messages st2 = messages st1 ++
        [Message.call_record (Call.caller call) (Call.receiver call) fd cs now] ∧
      emitted st2 = emitted st1 ∧
      ∀ es2 st3,
        run es2 st2 = Some st3 →
        Forall (leaves_alone tid) es2 →
        ∃ st4, step (WriteSettles tid WriteOk n2) st3 = Some st4 ∧
          messages st4 = messages st3 ++
            [Message.call_record (Call.receiver call) (Call.caller call) fd cs n1] ∧
          emitted st4 = emitted st3 ++ ended_events socket callId call fd st3 ∧
          JsMap.get callId (activeCalls st4) = None.
Proof.
  intros Hlive tid fd cs es1 st1 Hrun Hal1. subst tid fd cs.
  cbn [run step] in Hrun.
  assert (Hsusp : tasks (on_call_end socket callId duration now st) !! nextTask st
                  = Some (EndAwait1 socket callId call (finalDuration duration call now)
                            (wasAccepted call)
                            (callStatus (wasAccepted call) (finalDuration duration call now))
                            (Message.call_record (Call.caller call) (Call.receiver call)
                               (finalDuration duration call now)
                               (callStatus (wasAccepted call)
                                  (finalDuration duration call now)) now))
                  ∧ (nextTask st < nextTask (on_call_end socket callId duration now st))%nat).
  { clear Hrun. open_state st. server_cbn_in Hlive. server_cbn. rewrite Hlive.
    destruct (ct !! callId); server_cbn; (split; [apply lookup_insert_eq | lia]). }
  destruct Hsusp as [Hin0 Hlt0].
  destruct (run_keeps_task es1 _ st1 _ _ Hrun Hlt0 Hin0 Hal1) as [Hin1 Hlt1].
  clear Hrun Hin0 Hlt0 Hlive Hal1.
  generalize dependent (nextTask st). intros tid Hin1 Hlt1.
  open_state st1. server_cbn_in Hin1. server_cbn_in Hlt1.
  eexists. split; [cbn [step tasks]; rewrite Hin1; reflexivity|].
  repeat (progress server_cbn). split; [done|]. split; [done|].
  intros es2 st3 Hrun2 Hal2.
  eapply run_keeps_task in Hrun2;
    [| | | exact Hal2]; [| server_cbn; exact Hlt1 | server_cbn; apply lookup_insert_eq].
  destruct Hrun2 as [Hin3 Hlt3].
  destruct st3 as [ou3 ac3 ct3 su3 rm3 tmrs3 nt3 tk3 nk3 ms3 em3 er3]. server_cbn_in Hin3.
  eexists. split; [cbn [step tasks]; rewrite Hin3; reflexivity|].
  repeat (progress server_cbn). unfold ended_events. server_cbn.
  split; [done|]. split; [by rewrite <- app_assoc|].
  apply JsMap_get_delete_eq.
Qed.

(** X22: The missed-call callback with any other events running while it
    awaits its writes: when its first write settles the caller's
    ["missed"] document is created, and when its second settles the
    receiver's is created, the two [audio:call:missed] events are sent and
    the session and its [callTimeouts] entry are gone. *)
Lemma timeout_under_interleaving st h now tm call n1 n2 :
  timers st !! h = Some tm →
  t_armedAt tm + t_delay tm ≤ now →
  JsMap.get (t_callId tm) (activeCalls st) = Some call →
  Call.status call = Ringing →
  let tid := nextTask st in
  ∀ es1 st1,
    run (TimerFires h now :: es1) st = Some st1 →
    Forall (leaves_alone tid) es1 →
    ∃ st2, step (WriteSettles tid WriteOk n1) st1 = Some st2 ∧
      messages st2 = messages st1 ++
        [Message.call_record (Call.caller call) (Call.receiver call) 0 "missed" now] ∧
      emitted st2 = emitted st1 ∧
      ∀ es2 st3,
        run es2 st2 = Some st3 →
        Forall (leaves_alone tid) es2 →
        ∃ st4, step (WriteSettles tid WriteOk n2) st3 = Some st4 ∧
          messages st4 = messages st3 ++
            [Message.call_record (Call.receiver call) (Call.caller call) 0 "missed" n1] ∧
          emitted st4 = emitted st3 ++ missed_events (t_callId tm) call ∧
          JsMap.get (t_callId tm) (activeCalls st4) = None ∧
          callTimeouts st4 !! t_callId tm = None.
Proof.
  intros Hh Hdue Hlive Hring tid es1 st1 Hrun Hal1. subst tid.
  cbn [run] in Hrun.
  destruct (step (TimerFires h now) st) as [st0|] eqn:Hfire; [|done].
  assert (Hsusp : tasks st0 !! nextTask st
                  = Some (MissedAwait1 (t_callId tm) call
                            (Message.call_record (Call.caller call) (Call.receiver call)
                               0 "missed" now))
                  ∧ (nextTask st < nextTask st0)%nat).
  { clear Hrun. apply Z.leb_le in Hdue. open_state st.
    server_cbn_in Hh. server_cbn_in Hlive. cbn [step timers] in Hfire.
    rewrite Hh, Hdue in Hfire. injection Hfire as <-.
    server_cbn. rewrite Hlive, Hring. server_cbn.
    split; [apply lookup_insert_eq | lia]. }
  destruct Hsusp as [Hin0 Hlt0].
  destruct (run_keeps_task es1 _ st1 _ _ Hrun Hlt0 Hin0 Hal1) as [Hin1 Hlt1].
  clear Hrun Hin0 Hlt0 Hlive Hal1 Hfire Hh.
  generalize dependent (nextTask st). intros tid Hin1 Hlt1.
  open_state st1. server_cbn_in Hin1. server_cbn_in Hlt1.
  eexists. split; [cbn [step tasks]; rewrite Hin1; reflexivity|].
  repeat (progress server_cbn). split; [done|]. split; [done|].
  intros es2 st3 Hrun2 Hal2.
  eapply run_keeps_task in Hrun2;
    [| | | exact Hal2]; [| server_cbn; exact Hlt1 | server_cbn; apply lookup_insert_eq].
  destruct Hrun2 as [Hin3 Hlt3].
  destruct st3 as [ou3 ac3 ct3 su3 rm3 tmrs3 nt3 tk3 nk3 ms3 em3 er3]. server_cbn_in Hin3.
  eexists. split; [cbn [step tasks]; rewrite Hin3; reflexivity|].
  repeat (progress server_cbn). unfold missed_events.
  split; [done|]. split; [by rewrite <- app_assoc|].
  split; [apply JsMap_get_delete_eq | apply lookup_delete_eq].
Qed.

(** * Further properties of the entry point *)

(** ** Initiate and accept *)

(** X1: An initiate to a user with no presence entry creates nothing: no
    session, no timer, no timeout entry, no suspended handler; the
    requesting socket alone gets [audio:call:error] "User is offline". *)
Theorem initiate_to_offline_user (st : Server) (socket : SocketId)
    (receiverId callerId : UserId) (callerInfo : string) (now : Z) :
  onlineUsers st !! receiverId = None →
  let st' := on_call_initiate socket receiverId callerId callerInfo now st in
  activeCalls st' = activeCalls st ∧ callTimeouts st' = callTimeouts st ∧
  timers st' = timers st ∧ nextTimer st' = nextTimer st ∧
  tasks st' = tasks st ∧ messages st' = messages st ∧
  emitted st' = emitted st ++ [(ToSocket socket, CallError "User is offline")].
Proof.
  intros Hoff st'. subst st'. open_state st. server_cbn_in Hoff.
  server_cbn. rewrite Hoff. server_cbn. repeat split; done.
Qed.

Lemma initiate_to_offline_user_witness :
  emitted (on_call_initiate "sA" "carol" "alice" "Alice" 1000 ringing_state)
  = emitted ringing_state ++ [(ToSocket "sA", CallError "User is offline")].
Proof.
  pose proof (initiate_to_offline_user ringing_state "sA" "carol" "alice" "Alice" 1000
                ltac:(vm_compute; reflexivity)) as H.
  exact (proj2 (proj2 (proj2 (proj2 (proj2 (proj2 H)))))).
Defined.

Lemma accept_live (st : Server) (socket : SocketId) (callId : CallId)
    (now : Z) (call : Call.t) :
  JsMap.get callId (activeCalls st) = Some call →
  let st1 := on_call_accept socket callId now st in
  (∀ c, c ≠ callId → JsMap.get c (activeCalls st1) = JsMap.get c (activeCalls st)) ∧
  callTimeouts st1 !! callId = None ∧
  (∀ h, callTimeouts st !! callId = Some h → timers st1 !! h = None) ∧
  emitted st1 = emitted st ++
    [ (ToRoom (Call.callerSocketId call), CallAccepted callId now);
      (ToRoom (Call.receiverSocketId call), CallAccepted callId now) ] ∧
  messages st1 = messages st ∧ tasks st1 = tasks st.
Proof.
  intros Hlive st1. subst st1. open_state st. server_cbn_in Hlive.
  server_cbn. rewrite Hlive.
  destruct (ct !! callId) as [h0|] eqn:Ect; server_cbn.
  - split; [intros c Hne; by apply JsMap_get_set_ne|].
    split; [apply lookup_delete_eq|].
    split; [intros h [= <-]; apply lookup_delete_eq|].
    split; [by rewrite <- app_assoc|]. by split.
  - split; [intros c Hne; by apply JsMap_get_set_ne|].
    split; [done|]. split; [done|].
    split; [by rewrite <- app_assoc|]. by split.
Qed.

(** X2: An accept for a live session, whatever its status: the timer on
    record is cancelled and its entry dropped, the stored session becomes
    active with [acceptedAt] the time of this accept and every other field
    as before, [audio:call:accepted] goes to both recorded socket rooms,
    no history is written, and every other session is untouched.  A
    further accept stamps [acceptedAt] again. *)
Theorem accept_activates_call (st : Server) (socket : SocketId) (callId : CallId)
    (now : Z) (call : Call.t) :
  JsMap.get callId (activeCalls st) = Some call →
  let st1 := on_call_accept socket callId now st in
  JsMap.get callId (activeCalls st1)
    = Some (Call.mk (Call.id call) (Call.caller call) (Call.receiver call)
              (Call.callerSocketId call) (Call.receiverSocketId call)
              Active (Call.startedAt call) (Some now) (Call.callerInfo call)) ∧
  (∀ c, c ≠ callId → JsMap.get c (activeCalls st1) = JsMap.get c (activeCalls st)) ∧
  callTimeouts st1 !! callId = None ∧
  (∀ h, callTimeouts st !! callId = Some h → timers st1 !! h = None) ∧
  emitted st1 = emitted st ++
    [ (ToRoom (Call.callerSocketId call), CallAccepted callId now);
      (ToRoom (Call.receiverSocketId call), CallAccepted callId now) ] ∧
  messages st1 = messages st ∧ tasks st1 = tasks st ∧
  ∀ socket' now',
    Call.acceptedAt <$> JsMap.get callId (activeCalls (on_call_accept socket' callId now' st1))
    = Some (Some now').
Proof.
  intros Hlive st1.
  pose proof (accept_makes_active st socket callId now call Hlive) as H1. fold st1 in H1.
  destruct (accept_live st socket callId now call Hlive) as (Ho & Hc & Ht & He & Hm & Hk).
  fold st1 in Ho, Hc, Ht, He, Hm, Hk.
  split; [exact H1|]. split; [exact Ho|]. split; [exact Hc|]. split; [exact Ht|].
  split; [exact He|]. split; [exact Hm|]. split; [exact Hk|].
  intros socket' now'.
  by rewrite (accept_makes_active st1 socket' callId now' _ H1).
Qed.

Lemma accept_activates_call_witness :
  JsMap.get the_call (activeCalls (on_call_accept "sB" the_call 2000 ringing_state))
  = Some active_call.
Proof.
  exact (proj1 (accept_activates_call ringing_state "sB" the_call 2000 ringing_call
                  ltac:(vm_compute; reflexivity))).
Defined.

(** ** The timeout callback on a call that is no longer ringing *)

(** X3: When a timer comes due and its session is gone or has been accepted,
    the callback does nothing: the timer leaves the pending ones and all
    else stays, the (stale) [callTimeouts] entry included. *)
Theorem timeout_on_resolved_call (st : Server) (h : TimerId) (tm : Timer) (now : Z) :
  timers st !! h = Some tm →
  t_armedAt tm + t_delay tm ≤ now →
  (JsMap.get (t_callId tm) (activeCalls st) = None ∨
   ∃ call, JsMap.get (t_callId tm) (activeCalls st) = Some call ∧
           Call.status call = Active) →
  ∃ st', step (TimerFires h now) st = Some st' ∧
    timers st' = base.delete h (timers st) ∧
    activeCalls st' = activeCalls st ∧ callTimeouts st' = callTimeouts st ∧
    tasks st' = tasks st ∧ messages st' = messages st ∧ emitted st' = emitted st.
Proof.
  intros Hh Hdue Hres. apply Z.leb_le in Hdue.
  open_state st. server_cbn_in Hh. server_cbn_in Hres.
  cbn [step timers]. rewrite Hh, Hdue. eexists. split; [reflexivity|].
  server_cbn.
  destruct Hres as [Hgone | (call & Hlive & Hact)];
    [rewrite Hgone | rewrite Hlive, Hact]; server_cbn; repeat split; done.
Qed.

Lemma timeout_on_resolved_call_witness :
  ∃ st', step (TimerFires 0 31000) declined_twice_initiated = Some st' ∧
         emitted st' = emitted declined_twice_initiated ∧
         messages st' = [].
Proof.
  assert (Hgone : JsMap.get the_call (activeCalls declined_twice_initiated) = None)
    by (vm_compute; reflexivity).
  destruct (timeout_on_resolved_call declined_twice_initiated
              0%nat (mkTimer the_call 30000 1000) 31000
              ltac:(vm_compute; reflexivity) ltac:(simpl; lia)
              (or_introl Hgone))
    as (st' & Hstep & _ & _ & _ & _ & Hmsg & Hem).
  exists st'. split; [exact Hstep|]. split; [exact Hem | exact Hmsg].
Defined.

(** ** Races between a suspended handler and another event *)

(** X4: An accept that arrives while the timeout callback awaits its write
    does not rescue the call.  Both parties are told [accepted], and when
    the writes settle both are told [missed], two ["missed"] documents are
    in the history and the session, by then active, is removed. *)
Theorem accept_while_timeout_awaits (st : Server) (h : TimerId) (tm : Timer)
    (socket : SocketId) (now n0 n1 n2 : Z) (call : Call.t) :
  timers st !! h = Some tm →
  t_armedAt tm + t_delay tm ≤ now →
  JsMap.get (t_callId tm) (activeCalls st) = Some call →
  Call.status call = Ringing →
  ∃ st',
    run (accept_during_timeout h socket (t_callId tm) now n0 n1 n2 (nextTask st)) st
      = Some st' ∧
    emitted st' = emitted st ++
      [ (ToRoom (Call.callerSocketId call), CallAccepted (t_callId tm) n0);
        (ToRoom (Call.receiverSocketId call), CallAccepted (t_callId tm) n0);
        (ToRoom (Call.callerSocketId call), CallMissed (t_callId tm) "No answer" "outgoing");
        (ToRoom (Call.receiverSocketId call),
           CallMissed (t_callId tm) "Missed call" "incoming") ] ∧
    messages st' = messages st ++
      [ Message.call_record (Call.caller call) (Call.receiver call) 0 "missed" now;
        Message.call_record (Call.receiver call) (Call.caller call) 0 "missed" n1 ] ∧
    JsMap.get (t_callId tm) (activeCalls st') = None.
Proof.
  intros Hh Hdue Hlive Hring. apply Z.leb_le in Hdue.
  open_state st. server_cbn_in Hh. server_cbn_in Hlive.
  unfold accept_during_timeout.
  turns. rewrite Hh, Hdue. turns. rewrite Hlive, Hring. turns. rewrite Hlive.
  destruct (ct !! t_callId tm) as [h0|] eqn:Ect; turns;
    (eexists; split; [reflexivity|]); server_cbn;
    rewrite <- ?app_assoc; cbn [app];
    (split; [done|]); (split; [done|]);
    rewrite JsMap_get_delete_eq; done.
Qed.

Lemma accept_while_timeout_awaits_witness :
  ∃ st',
    run (accept_during_timeout 0 "sB" the_call 31000 31001 31002 31003
           (nextTask ringing_state)) ringing_state = Some st' ∧
    JsMap.get the_call (activeCalls st') = None ∧
    length (messages st') = 2%nat.
Proof.
  destruct (accept_while_timeout_awaits ringing_state 0%nat (mkTimer the_call 30000 1000)
              "sB" 31000 31001 31002 31003 ringing_call
              ltac:(vm_compute; reflexivity) ltac:(simpl; lia)
              ltac:(vm_compute; reflexivity) ltac:(reflexivity))
    as (st' & Hrun & _ & Hmsg & Hgone).
  exists st'. split; [exact Hrun|]. split; [exact Hgone|]. by rewrite Hmsg.
Defined.

(** X5: Two hang-ups for one live call, the second processed before the
    first one's write has settled, are both carried out in full: four
    history documents and four [audio:call:ended] events, each pair with
    the duration of its own request. *)
Theorem overlapping_ends_both_run (st : Server) (s1 s2 : SocketId) (callId : CallId)
    (d1 d2 : option Z) (t1 t2 n1 n2 n3 n4 : Z) (call : Call.t) :
  JsMap.get callId (activeCalls st) = Some call →
  let fd1 := finalDuration d1 call t1 in
  let fd2 := finalDuration d2 call t2 in
  let cs1 := callStatus (wasAccepted call) fd1 in
  let cs2 := callStatus (wasAccepted call) fd2 in
  ∃ st',
    run (overlapping_ends s1 s2 callId d1 d2 t1 t2 n1 n2 n3 n4 (nextTask st)) st
      = Some st' ∧
    messages st' = messages st ++
      [ Message.call_record (Call.caller call) (Call.receiver call) fd1 cs1 t1;
        Message.call_record (Call.caller call) (Call.receiver call) fd2 cs2 t2;
        Message.call_record (Call.receiver call) (Call.caller call) fd1 cs1 n1;
        Message.call_record (Call.receiver call) (Call.caller call) fd2 cs2 n2 ] ∧
    emitted st' = emitted st ++
      ended_events s1 callId call fd1 st ++ ended_events s2 callId call fd2 st ∧
    JsMap.get callId (activeCalls st') = None.
Proof.
  intros Hlive fd1 fd2 cs1 cs2. subst fd1 fd2 cs1 cs2.
  open_state st. server_cbn_in Hlive.
  unfold overlapping_ends, ended_events.
  destruct (ct !! callId) as [h0|] eqn:Ect;
    repeat (progress (turns; rewrite ?Hlive, ?Ect;
                      repeat first [ rewrite lookup_insert_eq
                                   | rewrite lookup_delete_eq
                                   | rewrite lookup_insert_ne by lia
                                   | rewrite lookup_delete_ne by lia ]));
    (eexists; split; [reflexivity|]); server_cbn;
    rewrite <- ?app_assoc; cbn [app];
    (split; [done|]); (split; [done|]);
    rewrite ?JsMap_get_delete_eq; done.
Qed.

Lemma overlapping_ends_both_run_witness :
  ∃ st',
    run (overlapping_ends "sA" "sB" the_call (Some 42) (Some 41) 9000 9001
           9002 9003 9004 9005 (nextTask active_state)) active_state = Some st' ∧
    length (messages st') = 4%nat.
Proof.
  destruct (overlapping_ends_both_run active_state "sA" "sB" the_call (Some 42) (Some 41)
              9000 9001 9002 9003 9004 9005 active_call ltac:(vm_compute; reflexivity))
    as (st' & Hrun & Hmsg & _).
  exists st'. split; [exact Hrun|]. by rewrite Hmsg.
Defined.

(** ** Call identifiers and duplicate initiates *)

(** X6: Two initiates that yield the same [callId] leave the first timer
    pending and out of reach: the second overwrites the [callTimeouts]
    entry without a [clearTimeout], so an accept or a decline cancels the
    second timer only. *)
Theorem duplicate_initiate_orphans_timer (st st3 : Server) (s s' : SocketId)
    (receiverId callerId : UserId) (info info' : string) (now : Z)
    (receiverSocketId : SocketId) (e : Event) :
  onlineUsers st !! receiverId = Some receiverSocketId →
  str_truthy receiverSocketId = true →
  let callId := make_callId callerId receiverId now in
  let st2 := on_call_initiate s' receiverId callerId info' now
               (on_call_initiate s receiverId callerId info now st) in
  resolves callId e = true →
  step e st2 = Some st3 →
  timers st3 !! nextTimer st = Some (mkTimer callId 30000 now) ∧
  timers st3 !! S (nextTimer st) = None ∧
  callTimeouts st3 !! callId = None.
Proof.
  intros Hon Htr callId st2 Hres Hstep. subst st2.
  destruct e; try discriminate Hres; cbn [resolves] in Hres;
    apply bool_decide_eq_true in Hres; subst callId0;
    cbn [step] in Hstep; injection Hstep as <-;
    open_state st; server_cbn_in Hon;
    repeat (progress (server_cbn; fold callId;
                      rewrite ?Hon, ?Htr, ?JsMap_get_set_eq, ?lookup_insert_eq));
    (split; [rewrite lookup_delete_ne by lia; rewrite lookup_insert_ne by lia;
             apply lookup_insert_eq|]);
    (split; apply lookup_delete_eq).
Qed.

Lemma duplicate_initiate_orphans_timer_witness :
  timers declined_twice_initiated !! 0%nat = Some (mkTimer the_call 30000 1000).
Proof.
  exact (proj1 (duplicate_initiate_orphans_timer
                  (on_user_online "sB" "bob" (on_user_online "sA" "alice" init))
                  declined_twice_initiated "sA" "sA" "bob" "alice" "Alice" "Alice" 1000 "sB"
                  (CallDecline "sB" the_call None)
                  ltac:(vm_compute; reflexivity) eq_refl eq_refl eq_refl)).
Defined.

Lemma string_app_assoc (a b c : string) : (a +:+ b) +:+ c = a +:+ (b +:+ c).
Proof.
  induction a as [|x a IH]; [done|].
  change (String x ((a +:+ b) +:+ c) = String x (a +:+ (b +:+ c))).
  by rewrite IH.
Qed.

(** X7: Call ids are not unique across pairs of users: the ids are glued with
    ["_"], so caller [a_b] calling [c] and caller [a] calling [b_c] in the
    same millisecond get the same [callId]. *)
Theorem callId_collides_across_pairs (a b c : UserId) (now : Z) :
  make_callId (a +:+ "_" +:+ b) c now = make_callId a (b +:+ "_" +:+ c) now.
Proof.
  unfold make_callId. f_equal.
  rewrite !string_app_assoc. reflexivity.
Qed.

(** X8: Between the same caller and receiver, initiates at different clock
    readings get different call ids. *)
Theorem callId_distinct_timestamps (callerId receiverId : UserId) (n1 n2 : Z) :
  n1 ≠ n2 →
  make_callId callerId receiverId n1 ≠ make_callId callerId receiverId n2.
Proof.
  unfold make_callId. intros Hne H. apply Hne.
  repeat apply (inj (String.app _)) in H.
  by apply (inj pretty) in H.
Qed.

Lemma callId_distinct_timestamps_witness :
  make_callId "alice" "bob" 1000 ≠ make_callId "alice" "bob" 1001.
Proof. apply (callId_distinct_timestamps "alice" "bob" 1000 1001). lia. Defined.

(** ** The CORS origin check *)

(** X9: A request without an Origin header, or with an empty one, is always
    let through; any other origin is let through exactly when it is one
    of the four fixed origins or equals [FRONTEND_URL]. *)
Theorem cors_origin_allowed (frontendUrl : option string) (o : string) :
  cors_origin frontendUrl None = true ∧
  (cors_origin frontendUrl (Some o) = true ↔
     o = "" ∨ o = "https://nelly.pics" ∨ o = "http://localhost:3000" ∨
     o = "http://localhost:5173" ∨ o = "http://localhost:5174" ∨
     frontendUrl = Some o).
Proof.
  split; [reflexivity|].
  unfold cors_origin, allowedOrigins, filter_Boolean. cbn [flat_map app str_truthy].
  destruct o as [|x o]; cbn [str_truthy negb orb]; [split; [by left | done]|].
  set (s := String x o).
  assert (Hfix : ∀ rest,
            existsb (String.eqb s)
              ("https://nelly.pics" :: "http://localhost:3000" :: "http://localhost:5173"
                 :: "http://localhost:5174" :: rest) = true ↔
            s = "https://nelly.pics" ∨ s = "http://localhost:3000" ∨
            s = "http://localhost:5173" ∨ s = "http://localhost:5174" ∨
            existsb (String.eqb s) rest = true).
  { intros rest. cbn [existsb]. rewrite !orb_true_iff, !String.eqb_eq. tauto. }
  destruct frontendUrl as [u|]; [destruct (str_truthy u) eqn:Hu|];
    cbn [app]; rewrite Hfix; cbn [existsb]; rewrite ?orb_false_r, ?String.eqb_eq.
  - split; [intros [?|[?|[?|[?|?]]]]; subst; auto 10 | ].
    intros [?|[?|[?|[?|[?|?]]]]]; try discriminate; auto 10.
    right. right. right. right. congruence.
  - split; [intros [?|[?|[?|[?|?]]]]; try discriminate; auto 10 | ].
    intros [?|[?|[?|[?|[?|Hfe]]]]]; try discriminate; auto 10.
    injection Hfe as ->. discriminate Hu.
  - split; [intros [?|[?|[?|[?|?]]]]; try discriminate; auto 10 | ].
    intros [?|[?|[?|[?|[?|?]]]]]; try discriminate; auto 10.
Qed.

(** ** The WebRTC relay *)

Lemma relay_to_same_presence userId sig st st' :
  onlineUsers st' = onlineUsers st → relay_to userId sig st' = relay_to userId sig st.
Proof. intros H. unfold relay_to. by rewrite H. Qed.

(** No call event changes who is online or which user a socket speaks for. *)
Lemma call_events_keep_presence e st st' :
  step e st = Some st' →
  (∀ s u, e ≠ UserOnline s u) → (∀ s n, e ≠ Disconnect s n) →
  onlineUsers st' = onlineUsers st ∧ socketUserId st' = socketUserId st.
Proof.
  intros Hstep Hno1 Hno2. destruct e; cbn [step] in Hstep.
  - by destruct (Hno1 socket userId).
  - injection Hstep as <-. open_state st. server_cbn.
    destruct (ou !! receiverId) as [rs|]; [destruct (str_truthy rs)|]; server_cbn; done.
  - injection Hstep as <-. open_state st. server_cbn.
    destruct (JsMap.get callId ac) as [call|]; [|done].
    destruct (ct !! callId); server_cbn; done.
  - injection Hstep as <-. open_state st. server_cbn.
    destruct (JsMap.get callId ac) as [call|]; [|done].
    destruct (ct !! callId); server_cbn; done.
  - injection Hstep as <-. open_state st. server_cbn.
    destruct (JsMap.get callId ac) as [call|]; [|done].
    destruct (ct !! callId); server_cbn; done.
  - by destruct (Hno2 socket now).
  - open_state st. server_cbn_in Hstep.
    destruct (tmrs !! h) as [tm|]; [|done].
    destruct (t_armedAt tm + t_delay tm <=? now); [|done].
    injection Hstep as <-. server_cbn.
    destruct (JsMap.get (t_callId tm) ac) as [call|];
      [destruct (is_ringing (Call.status call))|]; server_cbn; done.
  - open_state st. server_cbn_in Hstep.
    destruct (tk !! tid) as [t0|]; [|done].
    injection Hstep as <-.
    destruct t0, r; repeat (progress server_cbn); done.
Qed.

(** X10: The relay does not look at the call stores: whatever call events are
    processed (initiate, accept, decline, end, a timer firing, a write
    settling), an offer, answer or ICE candidate is forwarded, or dropped,
    exactly as before them.  In particular a payload for a [callId] whose
    session was declined, ended or never existed is still forwarded. *)
Theorem relay_ignores_call_events (es : list Event) (st st' : Server) :
  run es st = Some st' →
  Forall (λ e, (∀ s u, e ≠ UserOnline s u) ∧ (∀ s n, e ≠ Disconnect s n)) es →
  ∀ socket callId userId payload,
    on_webrtc_offer socket callId userId payload st'
      = on_webrtc_offer socket callId userId payload st ∧
    on_webrtc_answer socket callId userId payload st'
      = on_webrtc_answer socket callId userId payload st ∧
    on_webrtc_ice_candidate socket callId userId payload st'
      = on_webrtc_ice_candidate socket callId userId payload st.
Proof.
  intros Hrun Hes.
  assert (Hkeep : onlineUsers st' = onlineUsers st ∧ socketUserId st' = socketUserId st).
  { revert st Hrun. induction es as [|e es IH]; intros st; cbn [run].
    - by intros [= <-].
    - destruct (step e st) as [s1|] eqn:Hstep; [|done]. intros Hrun.
      apply Forall_cons in Hes. destruct Hes as [[H1 H2] Hes].
      destruct (call_events_keep_presence e st s1 Hstep H1 H2) as [Ho Hs].
      destruct (IH Hes s1 Hrun) as [Ho' Hs']. split; congruence. }
  destruct Hkeep as [Ho Hs]. intros socket callId userId payload.
  unfold on_webrtc_offer, on_webrtc_answer, on_webrtc_ice_candidate.
  rewrite Hs. repeat split; by apply relay_to_same_presence.
Qed.

Lemma relay_ignores_call_events_witness :
  on_webrtc_offer "sA" the_call "bob" "sdp" declined_twice_initiated
  = Some ("sB", SigOffer the_call (Some "alice") "sdp").
Proof.
  rewrite (proj1 (relay_ignores_call_events
                    [ CallInitiate "sA" "bob" "alice" "Alice" 1000;
                      CallInitiate "sA" "bob" "alice" "Alice" 1000;
                      CallDecline "sB" the_call None ]
                    (on_user_online "sB" "bob" (on_user_online "sA" "alice" init))
                    declined_twice_initiated eq_refl
                    ltac:(repeat constructor; discriminate)
                    "sA" the_call "bob" "sdp")).
  vm_compute. reflexivity.
Defined.

(** X11: Last connection wins: after [u] has announced itself on [c1] and then
    on [c2], offers, answers and ICE candidates for [u] go to [c2], tagged
    with the sender's [socket.userId]. *)
Theorem relay_follows_latest_presence (st : Server) (u : UserId) (c1 c2 : SocketId)
    (socket : SocketId) (callId : CallId) (payload : string) :
  str_truthy u = true →
  str_truthy c2 = true →
  let st2 := on_user_online c2 u (on_user_online c1 u st) in
  on_webrtc_offer socket callId u payload st2
    = Some (c2, SigOffer callId (socketUserId st2 !! socket) payload) ∧
  on_webrtc_answer socket callId u payload st2
    = Some (c2, SigAnswer callId (socketUserId st2 !! socket) payload) ∧
  on_webrtc_ice_candidate socket callId u payload st2
    = Some (c2, SigIceCandidate callId (socketUserId st2 !! socket) payload).
Proof.
  intros Hu Hc st2.
  assert (Hon : onlineUsers st2 !! u = Some c2).
  { subst st2. open_state st. unfold on_user_online. rewrite Hu. server_cbn.
    apply lookup_insert_eq. }
  unfold on_webrtc_offer, on_webrtc_answer, on_webrtc_ice_candidate, relay_to.
  by rewrite Hon, Hc.
Qed.

Lemma relay_follows_latest_presence_witness :
  on_webrtc_offer "sB" the_call "alice" "sdp"
    (on_user_online "s2" "alice" (on_user_online "s1" "alice" init))
  = Some ("s2", SigOffer the_call None "sdp").
Proof.
  exact (proj1 (relay_follows_latest_presence init "alice" "s1" "s2" "sB" the_call "sdp"
                  eq_refl eq_refl)).
Defined.

(** X12: After [u] has moved from [c1] to [c2], the disconnect of the old
    socket [c1] cuts [u] off from signalling: every offer, answer and ICE
    candidate for [u] is dropped although [c2] is still connected. *)
Theorem relay_dropped_after_stale_disconnect (st : Server) (u : UserId) (c1 c2 : SocketId)
    (now : Z) (socket : SocketId) (callId : CallId) (payload : string) :
  str_truthy u = true →
  let st3 := on_disconnect c1 now (on_user_online c2 u (on_user_online c1 u st)) in
  on_webrtc_offer socket callId u payload st3 = None ∧
  on_webrtc_answer socket callId u payload st3 = None ∧
  on_webrtc_ice_candidate socket callId u payload st3 = None.
Proof.
  intros Hu st3.
  assert (Hoff : onlineUsers st3 !! u = None).
  { subst st3. apply disconnect_clears_presence; [|done].
    open_state st. unfold on_user_online. rewrite Hu. server_cbn.
    destruct (decide (c2 = c1)) as [->|Hne].
    - apply lookup_insert_eq.
    - rewrite lookup_insert_ne by done. apply lookup_insert_eq. }
  unfold on_webrtc_offer, on_webrtc_answer, on_webrtc_ice_candidate, relay_to.
  by rewrite Hoff.
Qed.

Lemma relay_dropped_after_stale_disconnect_witness :
  on_webrtc_offer "sB" the_call "alice" "sdp"
    (on_disconnect "s1" 5000
       (on_user_online "s2" "alice" (on_user_online "s1" "alice" init))) = None.
Proof.
  exact (proj1 (relay_dropped_after_stale_disconnect init "alice" "s1" "s2" 5000
                  "sB" the_call "sdp" eq_refl)).
Defined.

(** ** Disconnect cleanup *)

Lemma JsMap_delete_filter {V} k (m : list (string * V)) :
  JsMap.delete k m = List.filter (λ e, negb (bool_decide (e.1 = k))) m.
Proof.
  induction m as [|[k' v'] m IH]; [done|]. cbn [JsMap.delete List.filter fst].
  destruct (decide (k = k')) as [->|Hne].
  - rewrite bool_decide_eq_true_2 by done. cbn [negb]. exact IH.
  - rewrite bool_decide_eq_false_2 by congruence. cbn [negb]. by rewrite IH.
Qed.

Lemma JsMap_get_in {V} k (v : V) m : JsMap.get k m = Some v → In (k, v) m.
Proof.
  induction m as [|[k' v'] m IH]; [done|]. cbn [JsMap.get].
  destruct (decide (k = k')) as [->|Hne].
  - intros [= ->]. by left.
  - intros H. right. by apply IH.
Qed.

Lemma JsMap_in_get {V} k (v : V) m :
  NoDup (JsMap.keys m) → In (k, v) m → JsMap.get k m = Some v.
Proof.
  induction m as [|[k' v'] m IH]; [done|]. cbn [JsMap.keys map fst JsMap.get].
  intros Hnd Hin. apply NoDup_cons in Hnd. destruct Hnd as [Hnotin Hnd].
  destruct Hin as [[= -> ->] | Hin].
  - by rewrite decide_True.
  - destruct (decide (k = k')) as [->|Hne]; [|by apply IH].
    exfalso. apply Hnotin. apply list_elem_of_In.
    change k' with (fst (k', v)). by apply in_map.
Qed.

(** What the loop over the sessions does to every part of the state. *)
Lemma disconnect_calls_shape socket now calls st :
  let st' := fold_left (disconnect_call socket now) calls st in
  activeCalls st'
    = fold_left (λ ac e, if involves socket e then JsMap.delete e.1 ac else ac)
        calls (activeCalls st) ∧
  emitted st' = emitted st ++
    map (disconnect_notice socket now) (List.filter (involves socket) calls) ∧
  messages st' = messages st ∧ errors st' = errors st ∧
  tasks st' = tasks st ∧ onlineUsers st' = onlineUsers st.
Proof.
  revert st. induction calls as [|[callId call] calls IH]; intros st; cbn [fold_left].
  - cbn [List.filter map]. by rewrite app_nil_r.
  - destruct (IH (disconnect_call socket now st (callId, call)))
      as (Hac & Hem & Hms & Her & Htk & Hou).
    rewrite Hac, Hem, Hms, Her, Htk, Hou. clear IH Hac Hem Hms Her Htk Hou.
    assert (Hinv : involves socket (callId, call)
                   = bool_decide (Call.callerSocketId call = socket)
                     || bool_decide (Call.receiverSocketId call = socket)) by reflexivity.
    assert (Hnote : disconnect_notice socket now (callId, call)
                    = (ToRoom (if bool_decide (Call.callerSocketId call = socket)
                               then Call.receiverSocketId call
                               else Call.callerSocketId call),
                       CallEndedDisconnect callId (elapsed_seconds call now)
                         (wasAccepted call) "User disconnected")) by reflexivity.
    cbn [List.filter]. rewrite Hinv. clear Hinv.
    open_state st. server_cbn.
    destruct (bool_decide (Call.callerSocketId call = socket)) eqn:E1;
      destruct (bool_decide (Call.receiverSocketId call = socket)) eqn:E2;
      cbn [orb]; destruct (ct !! callId); server_cbn; cbn [map];
      rewrite ?Hnote; rewrite <- ?app_assoc; cbn [app]; repeat split; done.
Qed.

Lemma filter_filter_and {A} (f g : A → bool) (l : list A) :
  List.filter f (List.filter g l) = List.filter (λ x, g x && f x) l.
Proof.
  induction l as [|x l IH]; [done|]. cbn [List.filter].
  destruct (g x); cbn [andb List.filter]; [destruct (f x); by rewrite IH | exact IH].
Qed.

Lemma delete_involved_filter socket (calls m : list (string * Call.t)) :
  fold_left (λ ac e, if involves socket e then JsMap.delete e.1 ac else ac) calls m
  = List.filter
      (λ e, negb (existsb (λ e', involves socket e' && bool_decide (e.1 = e'.1)) calls)) m.
Proof.
  revert m. induction calls as [|e0 calls IH]; intros m; cbn [fold_left existsb].
  - cbn [negb]. induction m as [|e m IHm]; [done|]. cbn [List.filter]. by rewrite <- IHm.
  - rewrite IH. destruct (involves socket e0) eqn:Hinv; cbn [andb orb]; [|done].
    rewrite JsMap_delete_filter, filter_filter_and.
    apply filter_ext. intros e.
    destruct (bool_decide (e.1 = e0.1)); cbn [negb andb orb]; done.
Qed.

(** X13: After a disconnect the store holds exactly the sessions that do not
    name the disconnected socket, in their old order (the store being a
    map: no [callId] twice).  No session of that socket survives, as
    caller or as receiver, and no other session is touched. *)
Theorem disconnect_removes_sessions_of_socket (st : Server) (socket : SocketId) (now : Z) :
  NoDup (JsMap.keys (activeCalls st)) →
  activeCalls (on_disconnect socket now st)
    = List.filter (λ e, negb (involves socket e)) (activeCalls st) ∧
  (∀ c call, JsMap.get c (activeCalls (on_disconnect socket now st)) = Some call →
     Call.callerSocketId call ≠ socket ∧ Call.receiverSocketId call ≠ socket).
Proof.
  intros Hnd.
  assert (Heq : activeCalls (on_disconnect socket now st)
                = List.filter (λ e, negb (involves socket e)) (activeCalls st)).
  { unfold on_disconnect.
    match goal with
    | |- context [fold_left ?f ?l ?s] =>
        destruct (disconnect_calls_shape socket now l s) as (Hac & _)
    end.
    rewrite Hac. clear Hac.
    assert (Hsame : ∀ s0 : Server,
              activeCalls match socketUserId st !! socket with
                          | Some userId =>
                              if str_truthy userId
                              then io_emit (UserStatus userId false)
                                     (set_onlineUsers (base.delete userId) st)
                              else st
                          | None => st
                          end = activeCalls st).
    { intros _. destruct (socketUserId st !! socket) as [u|]; [|done].
      destruct (str_truthy u); [|done]. open_state st. by server_cbn. }
    rewrite (Hsame st). rewrite delete_involved_filter.
    apply filter_ext_in. intros [k v] Hin. f_equal.
    destruct (involves socket (k, v)) eqn:Hinv.
    - apply existsb_exists. exists (k, v). split; [done|].
      rewrite Hinv. cbn [andb fst]. by apply bool_decide_eq_true_2.
    - destruct (existsb _ (activeCalls st)) eqn:Hex; [|done].
      apply existsb_exists in Hex. destruct Hex as ([k' v'] & Hin' & Hboth).
      apply andb_true_iff in Hboth. destruct Hboth as [Hinv' Hk].
      apply bool_decide_eq_true in Hk. cbn [fst] in Hk. subst k'.
      pose proof (JsMap_in_get k v _ Hnd Hin) as H1.
      pose proof (JsMap_in_get k v' _ Hnd Hin') as H2.
      rewrite H1 in H2. injection H2 as <-. congruence. }
  split; [exact Heq|].
  intros c call Hget. apply JsMap_get_in in Hget. rewrite Heq in Hget.
  apply filter_In in Hget. destruct Hget as [_ Hno].
  apply negb_true_iff in Hno. unfold involves in Hno. cbn [snd] in Hno.
  apply orb_false_iff in Hno. destruct Hno as [H1 H2].
  apply bool_decide_eq_false in H1, H2. done.
Qed.

Lemma JsMap_set_keys_elem {V} k (v : V) m x :
  x ∈ JsMap.keys (JsMap.set k v m) → x = k ∨ x ∈ JsMap.keys m.
Proof.
  induction m as [|[k' v'] m IH]; cbn [JsMap.set JsMap.keys map fst]; intros Hx.
  - apply list_elem_of_singleton in Hx. by left.
  - destruct (decide (k = k')) as [->|Hne]; cbn [map fst] in Hx.
    + by right.
    + apply elem_of_cons in Hx. destruct Hx as [-> | Hx]; [right; by left|].
      destruct (IH Hx) as [-> | Hin]; [by left | right; by right].
Qed.

Lemma JsMap_delete_keys_elem {V} k (m : list (string * V)) x :
  x ∈ JsMap.keys (JsMap.delete k m) → x ∈ JsMap.keys m.
Proof.
  induction m as [|[k' v'] m IH]; cbn [JsMap.delete JsMap.keys map fst]; [done|].
  destruct (decide (k = k')); [intros Hx; right; by apply IH|].
  cbn [map fst]. intros Hx. apply elem_of_cons in Hx.
  destruct Hx as [-> | Hx]; [by left | right; by apply IH].
Qed.

Lemma JsMap_set_keys_NoDup {V} k (v : V) m :
  NoDup (JsMap.keys m) → NoDup (JsMap.keys (JsMap.set k v m)).
Proof.
  induction m as [|[k' v'] m IH]; cbn [JsMap.set JsMap.keys map fst]; intros Hnd.
  - apply NoDup_singleton.
  - apply NoDup_cons in Hnd. destruct Hnd as [Hnotin Hnd].
    destruct (decide (k = k')) as [->|Hne]; cbn [map fst].
    + by apply NoDup_cons.
    + apply NoDup_cons. split; [|by apply IH].
      intros Hin. apply JsMap_set_keys_elem in Hin.
      destruct Hin as [-> | Hin]; [done | by apply Hnotin].
Qed.

Lemma JsMap_delete_keys_NoDup {V} k (m : list (string * V)) :
  NoDup (JsMap.keys m) → NoDup (JsMap.keys (JsMap.delete k m)).
Proof.
  induction m as [|[k' v'] m IH]; cbn [JsMap.delete JsMap.keys map fst]; [done|].
  intros Hnd. apply NoDup_cons in Hnd. destruct Hnd as [Hnotin Hnd].
  destruct (decide (k = k')); [by apply IH|]. cbn [map fst].
  apply NoDup_cons. split; [|by apply IH].
  intros Hin. apply Hnotin. by eapply JsMap_delete_keys_elem.
Qed.

Ltac keys_goal H :=
  server_cbn;
  repeat first [ apply JsMap_delete_keys_NoDup | apply JsMap_set_keys_NoDup ];
  exact H.

Lemma disconnect_calls_keys_NoDup socket now calls st :
  NoDup (JsMap.keys (activeCalls st)) →
  NoDup (JsMap.keys (activeCalls (fold_left (disconnect_call socket now) calls st))).
Proof.
  revert st. induction calls as [|[c call] calls IH]; intros st Hs; cbn [fold_left]; [done|].
  apply IH. open_state st. server_cbn.
  destruct (bool_decide (Call.callerSocketId call = socket));
    destruct (bool_decide (Call.receiverSocketId call = socket));
    cbn [orb]; try done; destruct (ct !! c); keys_goal Hs.
Qed.

Lemma step_keys_NoDup e st st' :
  step e st = Some st' →
  NoDup (JsMap.keys (activeCalls st)) → NoDup (JsMap.keys (activeCalls st')).
Proof.
  intros Hstep Hnd. destruct e; cbn [step] in Hstep.
  - injection Hstep as <-. open_state st. server_cbn.
    destruct (str_truthy userId); keys_goal Hnd.
  - injection Hstep as <-. open_state st. server_cbn.
    destruct (ou !! receiverId) as [rs|]; [destruct (str_truthy rs)|]; keys_goal Hnd.
  - injection Hstep as <-. open_state st. server_cbn.
    destruct (JsMap.get callId ac) as [call|]; [|done].
    destruct (ct !! callId); keys_goal Hnd.
  - injection Hstep as <-. open_state st. server_cbn.
    destruct (JsMap.get callId ac) as [call|]; [|done].
    destruct (ct !! callId); keys_goal Hnd.
  - injection Hstep as <-. open_state st. server_cbn.
    destruct (JsMap.get callId ac) as [call|]; [|done].
    destruct (ct !! callId); keys_goal Hnd.
  - injection Hstep as <-. unfold on_disconnect.
    apply disconnect_calls_keys_NoDup.
    destruct (socketUserId st !! socket) as [u|]; [|done].
    destruct (str_truthy u); [|done]. open_state st. keys_goal Hnd.
  - open_state st. server_cbn_in Hstep.
    destruct (tmrs !! h) as [tm|]; [|done].
    destruct (t_armedAt tm + t_delay tm <=? now); [|done].
    injection Hstep as <-. server_cbn.
    destruct (JsMap.get (t_callId tm) ac) as [call|];
      [destruct (is_ringing (Call.status call))|]; keys_goal Hnd.
  - open_state st. server_cbn_in Hstep.
    destruct (tk !! tid) as [t0|]; [|done].
    injection Hstep as <-.
    destruct t0, r; repeat (progress server_cbn); keys_goal Hnd.
Qed.

(** In every state the server can reach, no [callId] is stored twice. *)
Lemma reachable_keys_NoDup st : reachable st → NoDup (JsMap.keys (activeCalls st)).
Proof.
  intros [es Hrun].
  assert (Hgen : ∀ es s s', NoDup (JsMap.keys (activeCalls s)) → run es s = Some s' →
                            NoDup (JsMap.keys (activeCalls s'))).
  { clear. induction es as [|e es IH]; intros s s' Hnd; cbn [run].
    - by intros [= <-].
    - destruct (step e s) as [s1|] eqn:Hstep; [|done].
      apply IH. by eapply step_keys_NoDup. }
  eapply Hgen; [|exact Hrun]. apply NoDup_nil_2.
Qed.

Lemma disconnect_removes_sessions_of_socket_witness :
  activeCalls bob_drops = [].
Proof.
  assert (Hreach : reachable active_state).
  { exists (alice_calls_bob ++ [CallAccept "sB" the_call 2000]). vm_compute. reflexivity. }
  exact (proj1 (disconnect_removes_sessions_of_socket active_state "sB" 9000
                  (reachable_keys_NoDup active_state Hreach))).
Defined.

Lemma disconnect_logs st socket now :
  emitted (on_disconnect socket now st)
    = emitted st ++ offline_notice socket st ++
      map (disconnect_notice socket now) (List.filter (involves socket) (activeCalls st)) ∧
  messages (on_disconnect socket now st) = messages st ∧
  errors (on_disconnect socket now st) = errors st ∧
  tasks (on_disconnect socket now st) = tasks st.
Proof.
  unfold on_disconnect, offline_notice.
  match goal with
  | |- context [fold_left ?f ?l ?s] =>
      destruct (disconnect_calls_shape socket now l s) as (_ & Hem & Hms & Her & Htk & _)
  end.
  rewrite Hem, Hms, Her, Htk. clear Hem Hms Her Htk.
  destruct (socketUserId st !! socket) as [u|]; [destruct (str_truthy u)|];
    open_state st; server_cbn; rewrite <- ?app_assoc; cbn [app]; repeat split; done.
Qed.

(** X14: What a disconnect sends and what it leaves alone: the offline
    broadcast for the socket's user if it has one, then, for each session
    naming the socket, in the order the sessions were created, one
    [audio:call:ended] with reason "User disconnected" to the other
    party's recorded socket room, carrying the whole seconds since
    acceptance.  No history document is created, nothing is logged as an
    error and no handler is left suspended. *)
Theorem disconnect_notifies_other_parties (st : Server) (socket : SocketId) (now : Z) :
  emitted (on_disconnect socket now st)
    = emitted st ++ offline_notice socket st ++
      map (disconnect_notice socket now) (List.filter (involves socket) (activeCalls st)) ∧
  messages (on_disconnect socket now st) = messages st ∧
  errors (on_disconnect socket now st) = errors st ∧
  tasks (on_disconnect socket now st) = tasks st.
Proof. apply disconnect_logs. Qed.

Lemma disconnect_call_timeout_entry socket now st entry c h :
  callTimeouts st !! c = Some h →
  callTimeouts (disconnect_call socket now st entry) !! c = Some h ∨
  timers (disconnect_call socket now st entry) !! h = None.
Proof.
  destruct entry as [callId call]. open_state st. server_cbn. intros Hc.
  destruct (bool_decide (Call.callerSocketId call = socket));
    destruct (bool_decide (Call.receiverSocketId call = socket));
    cbn [orb]; try (by left);
    destruct (ct !! callId) as [h0|] eqn:Ect; server_cbn; try (by left);
    (destruct (decide (callId = c)) as [->|Hne];
     [ right; rewrite Ect in Hc; injection Hc as ->; apply lookup_delete_eq
     | left; by rewrite lookup_delete_ne ]).
Qed.

Lemma disconnect_call_clears socket now st entry :
  involves socket entry = true →
  callTimeouts (disconnect_call socket now st entry) !! entry.1 = None ∧
  ∀ h, callTimeouts st !! entry.1 = Some h →
       timers (disconnect_call socket now st entry) !! h = None.
Proof.
  destruct entry as [callId call]. unfold involves. cbn [fst snd]. intros Hinv.
  open_state st. server_cbn. rewrite Hinv.
  destruct (bool_decide (Call.callerSocketId call = socket));
    destruct (ct !! callId) as [h0|] eqn:Ect; server_cbn;
    try (by split);
    (split; [apply lookup_delete_eq|]; intros h [= <-]; apply lookup_delete_eq).
Qed.

Lemma disconnect_calls_clear socket now calls st entry :
  In entry calls → involves socket entry = true →
  callTimeouts (fold_left (disconnect_call socket now) calls st) !! entry.1 = None ∧
  ∀ h, callTimeouts st !! entry.1 = Some h →
       timers (fold_left (disconnect_call socket now) calls st) !! h = None.
Proof.
  revert st. induction calls as [|e0 calls IH]; intros st Hin Hinv; [done|].
  cbn [fold_left].
  pose proof (disconnect_calls_quiet socket now calls (disconnect_call socket now st e0))
    as (_ & Htm & Hct & _).
  assert (Hkeep : ∀ h, timers (disconnect_call socket now st e0) !! h = None →
            timers (fold_left (disconnect_call socket now) calls
                      (disconnect_call socket now st e0)) !! h = None).
  { intros h Hnone.
    destruct (timers (fold_left _ calls _) !! h) as [tm|] eqn:E; [|done].
    apply Htm in E. congruence. }
  destruct Hin as [-> | Hin].
  - destruct (disconnect_call_clears socket now st entry Hinv) as [Hc Ht]. split.
    + destruct (callTimeouts (fold_left _ calls _) !! entry.1) as [h|] eqn:E; [|done].
      apply Hct in E. congruence.
    + intros h Hh. apply Hkeep. by apply Ht.
  - destruct (IH (disconnect_call socket now st e0) Hin Hinv) as [Hc Ht].
    split; [exact Hc|]. intros h Hh.
    destruct (disconnect_call_timeout_entry socket now st e0 _ _ Hh) as [Hstill | Hgone].
    + by apply Ht.
    + by apply Hkeep.
Qed.

(** X15: For every session a disconnect tears down, the timeout on record is
    disarmed: its [callTimeouts] entry is gone and its timer is no longer
    pending, so no [missed] follows the [ended]. *)
Theorem disconnect_disarms_timeouts (st : Server) (socket : SocketId) (now : Z)
    (callId : CallId) (call : Call.t) :
  In (callId, call) (activeCalls st) →
  involves socket (callId, call) = true →
  callTimeouts (on_disconnect socket now st) !! callId = None ∧
  ∀ h, callTimeouts st !! callId = Some h →
       timers (on_disconnect socket now st) !! h = None.
Proof.
  intros Hin Hinv. unfold on_disconnect.
  assert (Hpre : ∀ s0, s0 = match socketUserId st !! socket with
                            | Some userId =>
                                if str_truthy userId
                                then io_emit (UserStatus userId false)
                                       (set_onlineUsers (base.delete userId) st)
                                else st
                            | None => st
                            end →
                 activeCalls s0 = activeCalls st ∧ callTimeouts s0 = callTimeouts st).
  { intros s0 ->. destruct (socketUserId st !! socket) as [u|]; [|done].
    destruct (str_truthy u); [|done]. open_state st. by server_cbn. }
  destruct (Hpre _ eq_refl) as [Hac Hct]. rewrite Hac.
  match goal with
  | |- context [fold_left ?f ?l ?s] =>
      destruct (disconnect_calls_clear socket now l s (callId, call) Hin Hinv) as [Hc Ht]
  end.
  split; [exact Hc|]. intros h Hh. apply Ht. by rewrite Hct.
Qed.

Lemma disconnect_disarms_timeouts_witness :
  callTimeouts (on_disconnect "sA" 5000 ringing_state) !! the_call = None ∧
  timers (on_disconnect "sA" 5000 ringing_state) !! 0%nat = None.
Proof.
  destruct (disconnect_disarms_timeouts ringing_state "sA" 5000 the_call ringing_call
              ltac:(vm_compute; left; reflexivity) eq_refl) as [Hc Ht].
  split; [exact Hc|]. apply Ht. vm_compute. reflexivity.
Defined.

(** ** Presence that outlives its socket *)

(** X16: A socket that announces itself as [u1] and later as [u2] leaves [u1]
    online for good: its disconnect removes only [u2], the last id it
    announced, broadcasts no offline event for [u1], and signalling for
    [u1] keeps being forwarded to the closed socket. *)
Theorem abandoned_identity_stays_online (st : Server) (socket : SocketId) (u1 u2 : UserId)
    (now : Z) :
  str_truthy u1 = true → str_truthy u2 = true → u1 ≠ u2 →
  let st2 := on_user_online socket u2 (on_user_online socket u1 st) in
  let st3 := on_disconnect socket now st2 in
  onlineUsers st3 !! u1 = Some socket ∧
  onlineUsers st3 !! u2 = None ∧
  ¬ In (Broadcast, UserStatus u1 false) (emitted_since st2 st3) ∧
  (str_truthy socket = true →
   ∀ sender callId payload,
     on_webrtc_offer sender callId u1 payload st3
     = Some (socket, SigOffer callId (socketUserId st3 !! sender) payload)).
Proof.
  intros H1 H2 Hne st2 st3.
  assert (Hsu : socketUserId st2 !! socket = Some u2).
  { subst st2. open_state st. unfold on_user_online. rewrite H1, H2. server_cbn.
    apply lookup_insert_eq. }
  assert (Hon2 : onlineUsers st2 !! u1 = Some socket).
  { subst st2. open_state st. unfold on_user_online. rewrite H1, H2. server_cbn.
    rewrite lookup_insert_ne by done. apply lookup_insert_eq. }
  assert (Hon3 : onlineUsers st3 !! u1 = Some socket).
  { subst st3. unfold on_disconnect. rewrite Hsu, H2.
    match goal with
    | |- context [fold_left ?f ?l ?s] =>
        destruct (disconnect_calls_shape socket now l s) as (_ & _ & _ & _ & _ & Hou)
    end.
    rewrite Hou. revert Hon2. generalize st2. intros s Hs. open_state s.
    server_cbn_in Hs. server_cbn. by rewrite lookup_delete_ne. }
  split; [exact Hon3|].
  split; [subst st3; by apply disconnect_clears_presence|].
  split.
  - unfold emitted_since. subst st3.
    rewrite (proj1 (disconnect_logs st2 socket now)), drop_app_length.
    unfold offline_notice. rewrite Hsu, H2. intros Hin.
    apply in_app_or in Hin. destruct Hin as [[Heq | []] | Hin].
    + injection Heq as ->. done.
    + apply in_map_iff in Hin. destruct Hin as (e & Heq & _). discriminate Heq.
  - intros Hs sender callId payload.
    unfold on_webrtc_offer, relay_to. by rewrite Hon3, Hs.
Qed.

Lemma abandoned_identity_stays_online_witness :
  onlineUsers (on_disconnect "s1" 5000
                 (on_user_online "s1" "bob" (on_user_online "s1" "alice" init)))
    !! "alice" = Some "s1".
Proof.
  exact (proj1 (abandoned_identity_stays_online init "s1" "alice" "bob" 5000
                  eq_refl eq_refl ltac:(discriminate))).
Defined.

(** ** Invariants of the stores and of the history *)

Lemma deleted_sessions_shrink socket (calls m : list (string * Call.t)) c call :
  JsMap.get c
    (fold_left (λ ac e, if involves socket e then JsMap.delete e.1 ac else ac) calls m)
  = Some call →
  JsMap.get c m = Some call.
Proof.
  revert m. induction calls as [|e0 calls IH]; intros m; cbn [fold_left]; [done|].
  intros H. apply IH in H. destruct (involves socket e0); [|done].
  by eapply JsMap_get_delete_inv.
Qed.

(** Apart from initiate and accept, a turn only ever removes sessions and
    timeout entries. *)
Lemma step_stores_shrink e st st' :
  step e st = Some st' →
  (∀ s r c i n, e ≠ CallInitiate s r c i n) → (∀ s c n, e ≠ CallAccept s c n) →
  (∀ c h, callTimeouts st' !! c = Some h → callTimeouts st !! c = Some h) ∧
  (∀ c call, JsMap.get c (activeCalls st') = Some call →
             JsMap.get c (activeCalls st) = Some call).
Proof.
  intros Hstep Hno1 Hno2. destruct e; cbn [step] in Hstep.
  - injection Hstep as <-. open_state st. server_cbn.
    destruct (str_truthy userId); server_cbn; done.
  - by destruct (Hno1 socket receiverId callerId callerInfo now).
  - by destruct (Hno2 socket callId now).
  - injection Hstep as <-. open_state st. server_cbn.
    destruct (JsMap.get callId ac) as [call|]; [|done].
    destruct (ct !! callId); server_cbn;
      (split; [intros ? ? ?; eauto using lookup_delete_Some_inv
              | intros ? ? ?; eauto using JsMap_get_delete_inv]).
  - injection Hstep as <-. open_state st. server_cbn.
    destruct (JsMap.get callId ac) as [call|]; [|done].
    destruct (ct !! callId); server_cbn;
      (split; [intros ? ? ?; eauto using lookup_delete_Some_inv | done]).
  - injection Hstep as <-. split.
    + destruct (on_disconnect_quiet socket now st) as (_ & _ & Hct & _). exact Hct.
    + unfold on_disconnect. intros c call.
      match goal with
      | |- context [fold_left ?f ?l ?s] =>
          destruct (disconnect_calls_shape socket now l s) as (Hac & _)
      end.
      rewrite Hac. intros H. apply deleted_sessions_shrink in H. revert H.
      destruct (socketUserId st !! socket) as [u|]; [|done].
      destruct (str_truthy u); [|done]. open_state st. by server_cbn.
  - open_state st. server_cbn_in Hstep.
    destruct (tmrs !! h) as [tm|]; [|done].
    destruct (t_armedAt tm + t_delay tm <=? now); [|done].
    injection Hstep as <-. server_cbn.
    destruct (JsMap.get (t_callId tm) ac) as [call|];
      [destruct (is_ringing (Call.status call))|]; server_cbn; done.
  - open_state st. server_cbn_in Hstep.
    destruct (tk !! tid) as [t0|]; [|done].
    injection Hstep as <-.
    destruct t0, r; repeat (progress server_cbn);
      (split; [intros ? ? ?; eauto using lookup_delete_Some_inv
              | intros ? ? ?; eauto using JsMap_get_delete_inv]).
Qed.

Lemma step_timeouts_only_ringing e st st' :
  step e st = Some st' → timeouts_only_ringing st → timeouts_only_ringing st'.
Proof.
  intros Hstep Hinv. pose proof (step_stores_shrink e st st' Hstep) as Hs.
  destruct e;
    try (specialize (Hs ltac:(intros; discriminate) ltac:(intros; discriminate));
         destruct Hs as [Hct Hac];
         intros c' h' call' Hc Hg; eapply Hinv; [eapply Hct, Hc | eapply Hac, Hg]);
    clear Hs.
  - cbn [step] in Hstep. injection Hstep as <-. revert Hinv.
    unfold timeouts_only_ringing. open_state st. server_cbn.
    destruct (ou !! receiverId) as [rs|]; [destruct (str_truthy rs)|]; server_cbn;
      try done.
    intros Hinv c h call Hc Hg.
    destruct (decide (make_callId callerId receiverId now = c)) as [<-|Hne].
    + rewrite JsMap_get_set_eq in Hg. by injection Hg as <-.
    + rewrite lookup_insert_ne in Hc by done.
      rewrite JsMap_get_set_ne in Hg by done. by eapply Hinv.
  - cbn [step] in Hstep. injection Hstep as <-. revert Hinv.
    unfold timeouts_only_ringing. open_state st. server_cbn.
    destruct (JsMap.get callId ac) as [call0|] eqn:Hlive; [|done].
    destruct (ct !! callId) as [h0|] eqn:Ect; server_cbn;
      intros Hinv c h call Hc Hg;
      (destruct (decide (callId = c)) as [<-|Hne];
       [ first [ by rewrite lookup_delete_eq in Hc | congruence ]
       | rewrite ?lookup_delete_ne in Hc by done;
         rewrite JsMap_get_set_ne in Hg by done; by eapply Hinv ]).
Qed.

(** X17: In every state the server can reach, a call that has a timeout on
    record is still ringing: an accepted call never has one. *)
Theorem no_timeout_on_record_once_accepted (st : Server) (callId : CallId) (h : TimerId)
    (call : Call.t) :
  reachable st →
  callTimeouts st !! callId = Some h →
  JsMap.get callId (activeCalls st) = Some call →
  Call.status call = Ringing ∧ Call.acceptedAt call = None.
Proof.
  intros Hreach Hc Hg.
  assert (Hring : timeouts_only_ringing st).
  { destruct Hreach as [es Hrun].
    assert (Hgen : ∀ es s s', timeouts_only_ringing s → run es s = Some s' →
                              timeouts_only_ringing s').
    { clear. induction es as [|e es IH]; intros s s' Hinv; cbn [run].
      - by intros [= <-].
      - destruct (step e s) as [s1|] eqn:Hstep; [|done].
        apply IH. by eapply step_timeouts_only_ringing. }
    eapply Hgen; [|exact Hrun]. intros c h0 call0 Hc0. cbn in Hc0.
    by rewrite lookup_empty in Hc0. }
  pose proof (Hring callId h call Hc Hg) as Hst. split; [exact Hst|].
  pose proof (reachable_calls_consistent st Hreach callId call Hg) as Hcons.
  unfold call_consistent in Hcons. rewrite Hst in Hcons.
  destruct (Call.acceptedAt call); [discriminate Hcons | done].
Qed.

Lemma no_timeout_on_record_once_accepted_witness :
  Call.status ringing_call = Ringing ∧ Call.acceptedAt ringing_call = None.
Proof.
  apply (no_timeout_on_record_once_accepted ringing_state the_call 0%nat ringing_call).
  - exists alice_calls_bob. vm_compute. reflexivity.
  - vm_compute. reflexivity.
  - vm_compute. reflexivity.
Defined.

(** X18: Every stored session of a reachable state is active exactly when it
    carries an acceptance time: [status] and [acceptedAt] are only ever
    set together. *)
Theorem stored_sessions_consistent (st : Server) (callId : CallId) (call : Call.t) :
  reachable st →
  JsMap.get callId (activeCalls st) = Some call →
  (Call.status call = Active ↔ ∃ t, Call.acceptedAt call = Some t) ∧
  (Call.status call = Ringing ↔ Call.acceptedAt call = None).
Proof.
  intros Hreach Hg.
  pose proof (reachable_calls_consistent st Hreach callId call Hg) as Hcons.
  unfold call_consistent in Hcons.
  destruct (Call.status call), (Call.acceptedAt call) as [t|]; cbn in Hcons;
    try discriminate Hcons; split; split; try done; eauto.
  - intros [t' Ht]. discriminate Ht.
Qed.

Lemma stored_sessions_consistent_witness :
  Call.status active_call = Active ↔ ∃ t, Call.acceptedAt active_call = Some t.
Proof.
  refine (proj1 (stored_sessions_consistent active_state the_call active_call _ _)).
  - exists (alice_calls_bob ++ [CallAccept "sB" the_call 2000]). vm_compute. reflexivity.
  - vm_compute. reflexivity.
Defined.

Ltac extends :=
  first [ exists []; symmetry; apply app_nil_r
        | eexists; rewrite <- ?app_assoc; reflexivity ].

Lemma step_logs_extend e st st' : step e st = Some st' → logs_extend st st'.
Proof.
  intros Hstep. unfold logs_extend. destruct e; cbn [step] in Hstep.
  - injection Hstep as <-. open_state st. server_cbn.
    destruct (str_truthy userId); server_cbn; repeat split; extends.
  - injection Hstep as <-. open_state st. server_cbn.
    destruct (ou !! receiverId) as [rs|]; [destruct (str_truthy rs)|]; server_cbn;
      repeat split; extends.
  - injection Hstep as <-. open_state st. server_cbn.
    destruct (JsMap.get callId ac) as [call|]; [|repeat split; extends].
    destruct (ct !! callId); server_cbn; repeat split; extends.
  - injection Hstep as <-. open_state st. server_cbn.
    destruct (JsMap.get callId ac) as [call|]; [|repeat split; extends].
    destruct (ct !! callId); server_cbn; repeat split; extends.
  - injection Hstep as <-. open_state st. server_cbn.
    destruct (JsMap.get callId ac) as [call|]; [|repeat split; extends].
    destruct (ct !! callId); server_cbn; repeat split; extends.
  - injection Hstep as <-.
    destruct (disconnect_logs st socket now) as (Hem & Hms & Her & _).
    rewrite Hem, Hms, Her. repeat split; extends.
  - open_state st. server_cbn_in Hstep.
    destruct (tmrs !! h) as [tm|]; [|done].
    destruct (t_armedAt tm + t_delay tm <=? now); [|done].
    injection Hstep as <-. server_cbn.
    destruct (JsMap.get (t_callId tm) ac) as [call|];
      [destruct (is_ringing (Call.status call))|]; server_cbn; repeat split; extends.
  - open_state st. server_cbn_in Hstep.
    destruct (tk !! tid) as [t0|]; [|done].
    injection Hstep as <-.
    destruct t0, r; repeat (progress server_cbn); repeat split; extends.
Qed.

(** X19: The history, the events sent and the error log are append-only:
    whatever events are processed, each of them afterwards starts with
    what it held before.  The handlers never delete or rewrite a history
    document. *)
Theorem logs_are_append_only (es : list Event) (st st' : Server) :
  run es st = Some st' →
  (∃ m, messages st' = messages st ++ m) ∧
  (∃ e, emitted st' = emitted st ++ e) ∧
  (∃ l, errors st' = errors st ++ l).
Proof.
  revert st. induction es as [|e es IH]; intros st; cbn [run].
  - intros [= <-]. repeat split; extends.
  - destruct (step e st) as [s1|] eqn:Hstep; [|done]. intros Hrun.
    destruct (step_logs_extend e st s1 Hstep) as ((m1 & Hm1) & (e1 & He1) & (l1 & Hl1)).
    destruct (IH s1 Hrun) as ((m2 & Hm2) & (e2 & He2) & (l2 & Hl2)).
    rewrite Hm2, He2, Hl2, Hm1, He1, Hl1. repeat split; extends.
Qed.

Lemma logs_are_append_only_witness :
  ∃ st', run hang_up active_state = Some st' ∧
         ∃ e, emitted st' = emitted active_state ++ e.
Proof.
  destruct (run hang_up active_state) as [st'|] eqn:Hrun;
    [|vm_compute in Hrun; discriminate Hrun].
  exists st'. split; [reflexivity|].
  exact (proj1 (proj2 (logs_are_append_only hang_up active_state st' Hrun))).
Defined.

Lemma callStatus_ok wa fd : status_ok (callStatus wa fd) fd.
Proof.
  unfold callStatus, status_ok. destruct (truthy wa); cbn [andb]; [|by left].
  destruct (0 <? fd) eqn:Hpos; [right | by left].
  split; [done|]. by apply Z.ltb_lt.
Qed.

Lemma call_record_ok from to fd cs n :
  status_ok cs fd → history_doc_ok (Message.call_record from to fd cs n).
Proof. intros Hok. unfold history_doc_ok. cbn. repeat split; done. Qed.

Lemma missed_record_ok from to n :
  history_doc_ok (Message.call_record from to 0 "missed" n).
Proof. apply call_record_ok. by left. Qed.

Ltac tasks_goal Htk :=
  let tid' := fresh "tid'" in
  let t' := fresh "t'" in
  let Hin := fresh "Hin" in
  intros tid' t' Hin;
  repeat match type of Hin with
         | <[_:=_]> _ !! _ = Some _ =>
             apply lookup_insert_Some in Hin;
             destruct Hin as [[_ <-] | [_ Hin]];
             [ cbn [task_ok];
               eauto using callStatus_ok, call_record_ok, missed_record_ok |]
         | base.delete _ _ !! _ = Some _ => apply lookup_delete_Some_inv in Hin
         end;
  try (eapply Htk; exact Hin).

Lemma step_history_ok e st st' : step e st = Some st' → history_ok st → history_ok st'.
Proof.
  intros Hstep [Hms Htk]. unfold history_ok. destruct e; cbn [step] in Hstep.
  - injection Hstep as <-. open_state st. server_cbn.
    destruct (str_truthy userId); server_cbn; done.
  - injection Hstep as <-. open_state st. server_cbn.
    destruct (ou !! receiverId) as [rs|]; [destruct (str_truthy rs)|]; server_cbn; done.
  - injection Hstep as <-. open_state st. server_cbn.
    destruct (JsMap.get callId ac) as [call|]; [|done].
    destruct (ct !! callId); server_cbn; done.
  - injection Hstep as <-. open_state st. server_cbn.
    destruct (JsMap.get callId ac) as [call|]; [|done].
    destruct (ct !! callId); server_cbn; done.
  - injection Hstep as <-. open_state st. server_cbn_in Hms. server_cbn_in Htk.
    server_cbn. destruct (JsMap.get callId ac) as [call|]; [|done].
    destruct (ct !! callId); server_cbn; (split; [done|]); tasks_goal Htk.
    all: split; eauto using callStatus_ok, call_record_ok.
  - injection Hstep as <-.
    destruct (disconnect_logs st socket now) as (_ & Hm & _ & Hk).
    by rewrite Hm, Hk.
  - open_state st. server_cbn_in Hstep. server_cbn_in Hms. server_cbn_in Htk.
    destruct (tmrs !! h) as [tm|]; [|done].
    destruct (t_armedAt tm + t_delay tm <=? now); [|done].
    injection Hstep as <-. server_cbn.
    destruct (JsMap.get (t_callId tm) ac) as [call|];
      [destruct (is_ringing (Call.status call))|]; server_cbn; try done.
    split; [done|]. tasks_goal Htk.
  - open_state st. server_cbn_in Hstep. server_cbn_in Hms. server_cbn_in Htk.
    destruct (tk !! tid) as [t0|] eqn:Et; [|done].
    injection Hstep as <-. pose proof (Htk tid t0 Et) as Hok.
    destruct t0, r; cbn [task_ok] in Hok; repeat (progress server_cbn);
      (split; [ first [ done
                      | apply Forall_app; split; [done|]; apply Forall_singleton; tauto ]
              | tasks_goal Htk ]).
    all: try (apply call_record_ok; tauto).
Qed.

(** X20: Every call-history document the handlers ever create is a delivered
    audio call message with empty content whose status is ["missed"] or
    ["completed"], never ["declined"], and a ["completed"] one has a
    positive duration. *)
Theorem history_documents_well_formed (st : Server) (d : Message.t) :
  reachable st →
  In d (messages st) →
  Message.type d = "call" ∧ Message.content d = "" ∧ Message.status d = "delivered" ∧
  Message.callType (Message.callData d) = "audio" ∧
  (Message.cd_status (Message.callData d) = "missed" ∨
   (Message.cd_status (Message.callData d) = "completed" ∧
    0 < Message.duration (Message.callData d))).
Proof.
  intros [es Hrun] Hin.
  assert (Hgen : ∀ es s s', history_ok s → run es s = Some s' → history_ok s').
  { clear. induction es as [|e es IH]; intros s s' Hok; cbn [run].
    - by intros [= <-].
    - destruct (step e s) as [s1|] eqn:Hstep; [|done].
      apply IH. by eapply step_history_ok. }
  assert (Hinit : history_ok init).
  { split; [constructor|]. intros tid t H. cbn in H. by rewrite lookup_empty in H. }
  destruct (Hgen es init st Hinit Hrun) as [Hms _].
  rewrite List.Forall_forall in Hms. exact (Hms d Hin).
Qed.

Lemma history_documents_well_formed_witness :
  ∃ st', run (alice_calls_bob ++ CallAccept "sB" the_call 2000 :: hang_up) init = Some st' ∧
         length (messages st') = 2%nat ∧
         ∀ d, In d (messages st') → Message.type d = "call".
Proof.
  destruct (run (alice_calls_bob ++ CallAccept "sB" the_call 2000 :: hang_up) init)
    as [st'|] eqn:Hrun; [|vm_compute in Hrun; discriminate Hrun].
  exists st'. split; [reflexivity|]. split.
  - vm_compute in Hrun. injection Hrun as <-. reflexivity.
  - intros d Hin.
    refine (proj1 (history_documents_well_formed st' d _ Hin)).
    eexists. exact Hrun.
Defined.

(** ** Sample runs of the interleaved handlers *)

Lemma end_under_interleaving_witness :
  ∃ st2, step (WriteSettles 0 WriteOk 9600)
           (on_disconnect "sC" 9550 (on_call_end "sA" the_call None 9500 active_state))
         = Some st2 ∧
         messages st2 = [Message.call_record "alice" "bob" 7 "completed" 9500].
Proof.
  destruct (end_under_interleaving active_state "sA" the_call None 9500 active_call
              9600 9700 ltac:(vm_compute; reflexivity)
              [Disconnect "sC" 9550]
              (on_disconnect "sC" 9550 (on_call_end "sA" the_call None 9500 active_state))
              eq_refl ltac:(repeat constructor; intros r n; discriminate))
    as (st2 & Hstep & Hmsg & _).
  exists st2. split; [exact Hstep | exact Hmsg].
Defined.

Lemma timeout_under_interleaving_witness :
  ∃ st2, step (WriteSettles 0 WriteOk 31005)
           (on_user_online "sC" "carol"
              (missedCallTimeout the_call 31000 (set_timers (base.delete 0%nat) ringing_state)))
         = Some st2 ∧
         messages st2 = [Message.call_record "alice" "bob" 0 "missed" 31000].
Proof.
  destruct (timeout_under_interleaving ringing_state 0%nat 31000
              (mkTimer the_call 30000 1000) ringing_call 31005 31010
              ltac:(vm_compute; reflexivity) ltac:(simpl; lia)
              ltac:(vm_compute; reflexivity) eq_refl
              [UserOnline "sC" "carol"]
              (on_user_online "sC" "carol"
                 (missedCallTimeout the_call 31000
                    (set_timers (base.delete 0%nat) ringing_state)))
              eq_refl
              ltac:(repeat constructor; intros r n; discriminate))
    as (st2 & Hstep & Hmsg & _).
  exists st2. split; [exact Hstep | exact Hmsg].
Defined.
